(** * Agent API and profile visibility of the home-server-host repository

    A shallow embedding of

    - the edge function [agent-api] (the [Deno.serve] request handler with
      its routes [/register], [/heartbeat], [/disconnect], [/pools],
      [/pool/:id], [/join/:invite_code], and the helper [updatePoolTotals]);
    - the SQL function [public.users_share_pool] of the second migration;

    over the tables declared by the first migration.  The handler is written
    in a state monad over the data store; every call on the store client is
    recorded in a trace, so that "which queries ran" is observable. *)

From Stdlib Require Import List String Ascii Bool ZArith Lia.
Import ListNotations.

#[local] Open Scope string_scope.
#[local] Open Scope list_scope.

(** ** JavaScript values *)

(** Numbers.  The handler only ever adds numbers, compares them with nothing,
    and tests them for truthiness (in [x || 0]).  The development is
    parametric in the number type: any type with a zero that is its only
    falsy value and is a left unit of addition.  Integers are the instance
    used for concrete runs. *)
Class JsNumber (num : Type) : Type := {
  num_zero : num;
  num_add : num -> num -> num;
  num_truthy : num -> bool;
  num_truthy_spec : forall x, num_truthy x = false <-> x = num_zero;
  num_add_zero_l : forall x, num_add num_zero x = x
}.

#[global] Instance Z_JsNumber : JsNumber Z := {|
  num_zero := 0%Z;
  num_add := Z.add;
  num_truthy := fun x => negb (Z.eqb x 0);
  num_truthy_spec := fun x =>
    conj (fun e => proj1 (Z.eqb_eq x 0) (proj1 (negb_false_iff _) e))
         (fun e => proj2 (negb_false_iff _) (proj2 (Z.eqb_eq x 0) e));
  num_add_zero_l := Z.add_0_l
|}.

(** A property of a JSON request body: absent ([undefined] when read), [null],
    or a value. *)
Inductive js (A : Type) : Type :=
| Undefined
| Null
| Val (a : A).
Arguments Undefined {A}.
Arguments Null {A}.
Arguments Val {A} a.

(** [x !== undefined] *)
Definition defined {A} (x : js A) : bool :=
  match x with Undefined => false | _ => true end.

(** What is sent to a nullable column when a defined property is written. *)
Definition to_column {A} (x : js A) : option A :=
  match x with Val a => Some a | _ => None end.

(** Truthiness of a string property: [undefined] and [''] are falsy. *)
Definition truthy_str (x : option string) : bool :=
  match x with
  | None => false
  | Some s => negb (s =? "")
  end.

(** [x || d] on a string property. *)
Definition str_or (x : option string) (d : string) : string :=
  match x with
  | Some s => if s =? "" then d else s
  | None => d
  end.

(** [String.prototype.startsWith] *)
Definition startsWith (s pat : string) : bool := String.prefix pat s.

Fixpoint drop (n : nat) (s : string) : string :=
  match n, s with
  | O, _ => s
  | S n', String _ s' => drop n' s'
  | S _, EmptyString => EmptyString
  end.

(** [s.replace(pat, rep)] with a string pattern: only the first occurrence
    of [pat] is replaced. *)
Fixpoint replace (pat rep s : string) : string :=
  if String.prefix pat s then rep ++ drop (String.length pat) s
  else match s with
       | EmptyString => EmptyString
       | String c s' => String c (replace pat rep s')
       end.

(** [pat] occurs somewhere in [s]. *)
Fixpoint includes (s pat : string) : bool :=
  String.prefix pat s ||
  match s with
  | EmptyString => false
  | String _ s' => includes s' pat
  end.

Section Model.

Context {num : Type} `{JsNumber num}.

(** [x || 0] on a number that may be [null] (a nullable column). *)
Definition or_zero (x : option num) : num :=
  match x with
  | Some n => if num_truthy n then n else num_zero
  | None => num_zero
  end.

(** [x || 0] on a number property of a request body. *)
Definition js_or_zero (x : js num) : num := or_zero (to_column x).

(** ** Tables (migration 20260105091953)

    Columns that neither the agent API nor [users_share_pool] reads or
    writes by name ([description], [is_public], [created_at], [updated_at],
    the server attributes, the allocations) are left out, and so is the
    [profiles] table. *)

Record pool : Type := {
  p_id : string;
  p_owner_id : string;
  p_name : string;
  p_invite_code : string;
  p_total_cpu_cores : option num;
  p_total_ram_gb : option num;
  p_total_storage_gb : option num
}.

Record pool_contributor : Type := {
  pc_id : string;
  pc_pool_id : string;
  pc_user_id : string;
  pc_cpu_cores : option num;
  pc_ram_gb : option num;
  pc_storage_gb : option num;
  pc_status : string;
  pc_last_seen : option string
}.

Record server : Type := {
  s_id : string;
  s_owner_id : string
}.

Record server_pool_assignment : Type := {
  spa_id : string;
  spa_server_id : string;
  spa_pool_id : string
}.

Record database : Type := {
  pools : list pool;
  pool_contributors : list pool_contributor;
  servers : list server;
  server_pool_assignments : list server_pool_assignment
}.

Definition set_pools (d : database) (ps : list pool) : database :=
  {| pools := ps;
     pool_contributors := pool_contributors d;
     servers := servers d;
     server_pool_assignments := server_pool_assignments d |}.

Definition set_pool_contributors (d : database) (cs : list pool_contributor)
  : database :=
  {| pools := pools d;
     pool_contributors := cs;
     servers := servers d;
     server_pool_assignments := server_pool_assignments d |}.


(** ** The world a request runs in *)

Inductive table : Type := pools_table | pool_contributors_table.

Inductive verb : Type := Select | Insert | Update.

(** One call on the client: the token check, or a query
    [supabase.from(t).<verb>(..).eq(col, val)...] with its [eq] filters. *)
Inductive call : Type :=
| AuthGetUser (token : string)
| From (t : table) (v : verb) (eqs : list (string * string)).

(** The store, the outcomes of the coming store calls ([true]: the call
    fails with a store error; an exhausted list means no more failures), and
    the calls made so far. *)
Record world : Type := {
  db : database;
  faults : list bool;
  trace : list call
}.

(** What a request gets from outside: the token verifier
    ([supabase.auth.getUser]), the clock ([new Date().toISOString()]) and
    the id the store generates for an inserted row ([gen_random_uuid()]). *)
Record env : Type := {
  getUser : string -> option string;
  now : string;
  fresh_id : string
}.

Definition M (A : Type) : Type := world -> A * world.

Definition ret {A} (a : A) : M A := fun w => (a, w).

Definition bind {A B} (m : M A) (k : A -> M B) : M B :=
  fun w => let (a, w') := m w in k a w'.

Notation "x <- m ;; k" := (bind m (fun x => k))
  (at level 61, m at next level, right associativity).

Definition get_db : M database := fun w => (db w, w).

Definition put_db (d : database) : M unit :=
  fun w => (tt, {| db := d; faults := faults w; trace := trace w |}).

Definition log (c : call) : M unit :=
  fun w => (tt, {| db := db w; faults := faults w; trace := trace w ++ [c] |}).

(** Whether the next store call goes through. *)
Definition next_ok : M bool :=
  fun w => match faults w with
           | [] => (true, w)
           | f :: fs => (negb f, {| db := db w; faults := fs; trace := trace w |})
           end.

Definition store_call (t : table) (v : verb) (eqs : list (string * string))
  : M bool :=
  _ <- log (From t v eqs) ;; next_ok.

(** The [{ data, error }] pair every client call resolves to. *)
Record result (A : Type) : Type := {
  data : option A;
  error : bool
}.
Arguments data {A} r.
Arguments error {A} r.

Definition ok {A} (a : A) : result A := {| data := Some a; error := false |}.
Definition failed {A} : result A := {| data := None; error := true |}.

(** [.single()]: exactly one row, or an error. *)
Definition single {A} (rows : list A) : result A :=
  match rows with
  | [r] => ok r
  | _ => failed
  end.

(** ** Queries of the handler *)

(** [from('pools').select(..).eq(col, v).single()] *)
Definition select_pool_single (col : string) (key : pool -> string)
    (v : string) : M (result pool) :=
  up <- store_call pools_table Select [(col, v)] ;;
  d <- get_db ;;
  ret (if up then single (filter (fun p => key p =? v) (pools d)) else failed).

(** [from('pool_contributors').select('id').eq('pool_id', ..)
      .eq('user_id', ..).single()] *)
Definition select_existing (poolId userId : string)
  : M (result pool_contributor) :=
  up <- store_call pool_contributors_table Select
          [("pool_id", poolId); ("user_id", userId)] ;;
  d <- get_db ;;
  ret (if up
       then single (filter (fun c => (pc_pool_id c =? poolId)
                                     && (pc_user_id c =? userId))
                           (pool_contributors d))
       else failed).

(** [from('pool_contributors').update(..).eq(..)...select(..).single()]:
    a singular update changes the table only when exactly one row matches
    (the request is rejected as a whole otherwise). *)
Definition update_single (eqs : list (string * string))
    (matches : pool_contributor -> bool)
    (change : pool_contributor -> pool_contributor)
  : M (result pool_contributor) :=
  up <- store_call pool_contributors_table Update eqs ;;
  d <- get_db ;;
  if up then
    match filter matches (pool_contributors d) with
    | [c] =>
        _ <- put_db (set_pool_contributors d
               (map (fun r => if matches r then change r else r)
                    (pool_contributors d))) ;;
        ret (ok (change c))
    | _ => ret failed
    end
  else ret failed.

(** [from('pool_contributors').insert(row).select().single()], under the
    table's constraints: primary key [id], [UNIQUE(pool_id, user_id)], and
    the foreign key to [pools]. *)
Definition insert_contributor (row : pool_contributor)
  : M (result pool_contributor) :=
  up <- store_call pool_contributors_table Insert [] ;;
  d <- get_db ;;
  if up
     && negb (existsb (fun c => pc_id c =? pc_id row) (pool_contributors d))
     && negb (existsb (fun c => (pc_pool_id c =? pc_pool_id row)
                                && (pc_user_id c =? pc_user_id row))
                      (pool_contributors d))
     && existsb (fun p => p_id p =? pc_pool_id row) (pools d)
  then
    _ <- put_db (set_pool_contributors d (pool_contributors d ++ [row])) ;;
    ret (ok row)
  else ret failed.

(** ** [updatePoolTotals] *)

Record totals : Type := {
  total_cpu_cores : num;
  total_ram_gb : num;
  total_storage_gb : num
}.

Definition add_contributor (acc : totals) (c : pool_contributor) : totals :=
  {| total_cpu_cores := num_add (total_cpu_cores acc) (or_zero (pc_cpu_cores c));
     total_ram_gb := num_add (total_ram_gb acc) (or_zero (pc_ram_gb c));
     total_storage_gb :=
       num_add (total_storage_gb acc) (or_zero (pc_storage_gb c)) |}.

Definition zero_totals : totals :=
  {| total_cpu_cores := num_zero;
     total_ram_gb := num_zero;
     total_storage_gb := num_zero |}.

Definition with_totals (t : totals) (p : pool) : pool :=
  {| p_id := p_id p;
     p_owner_id := p_owner_id p;
     p_name := p_name p;
     p_invite_code := p_invite_code p;
     p_total_cpu_cores := Some (total_cpu_cores t);
     p_total_ram_gb := Some (total_ram_gb t);
     p_total_storage_gb := Some (total_storage_gb t) |}.

Definition online_of (poolId : string) (cs : list pool_contributor)
  : list pool_contributor :=
  filter (fun c => (pc_pool_id c =? poolId) && (pc_status c =? "online")) cs.

Definition updatePoolTotals (poolId : string) : M unit :=
  up <- store_call pool_contributors_table Select
          [("pool_id", poolId); ("status", "online")] ;;
  d <- get_db ;;
  let contributors :=
    if up then Some (online_of poolId (pool_contributors d)) else None in
  match contributors with
  | None => ret tt
  | Some cs =>
      let totals := fold_left add_contributor cs zero_totals in
      up' <- store_call pools_table Update [("id", poolId)] ;;
      if up' then
        put_db (set_pools d
          (map (fun p => if p_id p =? poolId then with_totals totals p else p)
               (pools d)))
      else ret tt
  end.

(** ** Requests and responses *)

(** The JSON body of a request, seen through the three payload interfaces
    ([AgentRegistration], [HeartbeatPayload] and the disconnect body). *)
Record payload : Type := {
  b_pool_id : option string;
  b_contributor_id : option string;
  b_status : option string;
  b_cpu_cores : js num;
  b_ram_gb : js num;
  b_storage_gb : js num
}.

(** [json] is [None] when [req.json()] throws (no body, or not JSON). *)
Record request : Type := {
  method : string;
  pathname : string;
  authorization : option string;
  json : option payload
}.

(** [{ id, name, invite_code }] *)
Record pool_summary : Type := {
  ps_id : string;
  ps_name : string;
  ps_invite_code : string
}.

Inductive response_body : Type :=
| NoBody
| ErrorBody (error : string)
| Registered (contributor_id pool_name message : string)
| Success (message : string)
| PoolLists (contributed_pools : list (option pool_summary))
            (owned_pools : list pool_summary)
| PoolDetails (p : pool)
| InviteFound (pool_id pool_name message : string)
| UnknownRoute (error : string) (available_endpoints : list string).

Record response : Type := {
  status : nat;
  body : response_body
}.

Definition respond (code : nat) (b : response_body) : M response :=
  ret {| status := code; body := b |}.

Definition available_endpoints_list : list string :=
  [ "POST /register - Register agent to pool";
    "POST /heartbeat - Send heartbeat";
    "POST /disconnect - Disconnect agent";
    "GET /pools - Get user pools";
    "GET /pool/:id - Get pool details";
    "POST /join/:invite_code - Lookup pool by invite code" ].

(** [poolError || !pool] and the like: the row, when the call gave one. *)
Definition usable {A} (r : result A) : option A :=
  if error r then None else data r.

(** ** POST /register *)

(** The object passed to [update] for a contributor that exists. *)
Definition register_update (e : env) (b : payload) (c : pool_contributor)
  : pool_contributor :=
  {| pc_id := pc_id c;
     pc_pool_id := pc_pool_id c;
     pc_user_id := pc_user_id c;
     pc_cpu_cores := Some (js_or_zero (b_cpu_cores b));
     pc_ram_gb := Some (js_or_zero (b_ram_gb b));
     pc_storage_gb := Some (js_or_zero (b_storage_gb b));
     pc_status := "online";
     pc_last_seen := Some (now e) |}.

(** The row passed to [insert] for a new contributor. *)
Definition register_insert (e : env) (user poolId : string) (b : payload)
  : pool_contributor :=
  {| pc_id := fresh_id e;
     pc_pool_id := poolId;
     pc_user_id := user;
     pc_cpu_cores := Some (js_or_zero (b_cpu_cores b));
     pc_ram_gb := Some (js_or_zero (b_ram_gb b));
     pc_storage_gb := Some (js_or_zero (b_storage_gb b));
     pc_status := "online";
     pc_last_seen := Some (now e) |}.

Definition internal_error : M response :=
  respond 500 (ErrorBody "Internal server error").

Definition register (e : env) (user : string) (b : payload) : M response :=
  if negb (truthy_str (b_pool_id b)) then
    respond 400 (ErrorBody "pool_id is required")
  else
    let poolId := str_or (b_pool_id b) "" in
    r <- select_pool_single "id" p_id poolId ;;
    match usable r with
    | None => respond 404 (ErrorBody "Pool not found")
    | Some pool =>
        ex <- select_existing poolId user ;;
        match data ex with
        | Some existing =>
            u <- update_single [("id", pc_id existing)]
                   (fun c => pc_id c =? pc_id existing)
                   (register_update e b) ;;
            if error u then
              respond 500 (ErrorBody "Failed to update contributor")
            else
              _ <- updatePoolTotals poolId ;;
              respond 200 (Registered (pc_id existing) (p_name pool)
                             "Agent reconnected to pool")
        | None =>
            i <- insert_contributor (register_insert e user poolId b) ;;
            if error i then
              respond 500 (ErrorBody "Failed to register agent")
            else
              _ <- updatePoolTotals poolId ;;
              match data i with
              | Some contributor =>
                  respond 200 (Registered (pc_id contributor) (p_name pool)
                                 "Agent registered successfully")
              | None => internal_error
              end
        end
    end.

(** ** POST /heartbeat *)

(** [updateData] applied to a row: [status] and [last_seen] always, a
    resource column only when its property is not [undefined]. *)
Definition heartbeat_update (e : env) (b : payload) (c : pool_contributor)
  : pool_contributor :=
  {| pc_id := pc_id c;
     pc_pool_id := pc_pool_id c;
     pc_user_id := pc_user_id c;
     pc_cpu_cores :=
       if defined (b_cpu_cores b) then to_column (b_cpu_cores b)
       else pc_cpu_cores c;
     pc_ram_gb :=
       if defined (b_ram_gb b) then to_column (b_ram_gb b) else pc_ram_gb c;
     pc_storage_gb :=
       if defined (b_storage_gb b) then to_column (b_storage_gb b)
       else pc_storage_gb c;
     pc_status := str_or (b_status b) "online";
     pc_last_seen := Some (now e) |}.

Definition resources_present (b : payload) : bool :=
  defined (b_cpu_cores b) || defined (b_ram_gb b) || defined (b_storage_gb b).

Definition owned_by (contributorId user : string) (c : pool_contributor)
  : bool :=
  (pc_id c =? contributorId) && (pc_user_id c =? user).

Definition heartbeat (e : env) (user : string) (b : payload) : M response :=
  if negb (truthy_str (b_contributor_id b)) then
    respond 400 (ErrorBody "contributor_id is required")
  else
    let contributorId := str_or (b_contributor_id b) "" in
    u <- update_single [("id", contributorId); ("user_id", user)]
           (owned_by contributorId user) (heartbeat_update e b) ;;
    if error u then
      respond 500 (ErrorBody "Failed to update heartbeat")
    else if resources_present b then
      match data u with
      | Some contributor =>
          _ <- updatePoolTotals (pc_pool_id contributor) ;;
          respond 200 (Success "Heartbeat received")
      | None => internal_error
      end
    else respond 200 (Success "Heartbeat received").

(** ** POST /disconnect *)

Definition disconnect_update (e : env) (c : pool_contributor)
  : pool_contributor :=
  {| pc_id := pc_id c;
     pc_pool_id := pc_pool_id c;
     pc_user_id := pc_user_id c;
     pc_cpu_cores := pc_cpu_cores c;
     pc_ram_gb := pc_ram_gb c;
     pc_storage_gb := pc_storage_gb c;
     pc_status := "offline";
     pc_last_seen := Some (now e) |}.

Definition disconnect (e : env) (user : string) (b : payload) : M response :=
  if negb (truthy_str (b_contributor_id b)) then
    respond 400 (ErrorBody "contributor_id is required")
  else
    let contributorId := str_or (b_contributor_id b) "" in
    u <- update_single [("id", contributorId); ("user_id", user)]
           (owned_by contributorId user) (disconnect_update e) ;;
    if error u then respond 500 (ErrorBody "Failed to disconnect")
    else respond 200 (Success "Agent disconnected").

(** ** GET /pools, GET /pool/:id, POST /join/:invite_code *)

Definition summary (p : pool) : pool_summary :=
  {| ps_id := p_id p; ps_name := p_name p; ps_invite_code := p_invite_code p |}.

Definition list_pools (user : string) : M response :=
  up <- store_call pool_contributors_table Select [("user_id", user)] ;;
  d <- get_db ;;
  let contributions :=
    if up
    then map (fun c => option_map summary
                         (find (fun p => p_id p =? pc_pool_id c) (pools d)))
             (filter (fun c => pc_user_id c =? user) (pool_contributors d))
    else [] in
  up' <- store_call pools_table Select [("owner_id", user)] ;;
  d' <- get_db ;;
  let ownedPools :=
    if up' then map summary (filter (fun p => p_owner_id p =? user) (pools d'))
    else [] in
  respond 200 (PoolLists contributions ownedPools).

Definition get_pool (path : string) : M response :=
  let poolId := replace "/pool/" "" path in
  r <- select_pool_single "id" p_id poolId ;;
  match usable r with
  | None => respond 404 (ErrorBody "Pool not found")
  | Some pool => respond 200 (PoolDetails pool)
  end.

Definition lookup_invite (path : string) : M response :=
  let inviteCode := replace "/join/" "" path in
  r <- select_pool_single "invite_code" p_invite_code inviteCode ;;
  match usable r with
  | None => respond 404 (ErrorBody "Invalid invite code")
  | Some pool =>
      respond 200 (InviteFound (p_id pool) (p_name pool)
                     "Use /register with this pool_id to join")
  end.

(** ** The request handler *)

(** [await req.json()] followed by the route's code; a throw is caught by
    the handler's [try] and answered with 500. *)
Definition with_json (req : request) (k : payload -> M response)
  : M response :=
  match json req with
  | Some b => k b
  | None => internal_error
  end.

(** The routes, tried in order, once the caller is known. *)
Definition dispatch (e : env) (req : request) (path user : string)
  : M response :=
  if (method req =? "POST") && (path =? "/register") then
    with_json req (register e user)
  else if (method req =? "POST") && (path =? "/heartbeat") then
    with_json req (heartbeat e user)
  else if (method req =? "POST") && (path =? "/disconnect") then
    with_json req (disconnect e user)
  else if (method req =? "GET") && (path =? "/pools") then
    list_pools user
  else if (method req =? "GET") && startsWith path "/pool/" then
    get_pool path
  else if (method req =? "POST") && startsWith path "/join/" then
    lookup_invite path
  else
    respond 404 (UnknownRoute "Not found" available_endpoints_list).

Definition auth_getUser (e : env) (token : string) : M (option string) :=
  _ <- log (AuthGetUser token) ;; ret (getUser e token).

Definition serve (e : env) (req : request) : M response :=
  if method req =? "OPTIONS" then respond 200 NoBody
  else
    let path := replace "/agent-api" "" (pathname req) in
    if negb (truthy_str (authorization req)) then
      respond 401 (ErrorBody "Missing authorization header")
    else
      let authHeader := str_or (authorization req) "" in
      let token := replace "Bearer " "" authHeader in
      user <- auth_getUser e token ;;
      match user with
      | None => respond 401 (ErrorBody "Invalid or expired token")
      | Some u => dispatch e req path u
      end.

(** ** [users_share_pool] (migration 20260105105842) *)

(** SQL's three-valued logic; [None] is NULL.  The arguments of the function
    are nullable, the columns compared with them are not. *)
Definition sql_eq (a b : option string) : option bool :=
  match a, b with
  | Some x, Some y => Some (x =? y)
  | _, _ => None
  end.

Definition sql_or (a b : option bool) : option bool :=
  match a, b with
  | Some true, _ => Some true
  | _, Some true => Some true
  | Some false, Some false => Some false
  | _, _ => None
  end.

Definition sql_and (a b : option bool) : option bool :=
  match a, b with
  | Some false, _ => Some false
  | _, Some false => Some false
  | Some true, Some true => Some true
  | _, _ => None
  end.

(** A [WHERE] clause keeps a row only when its condition is true. *)
Definition holds (c : option bool) : bool :=
  match c with
  | Some true => true
  | _ => false
  end.

(** [p LEFT JOIN pool_contributors pc ON pc.pool_id = p.id]: the rows of
    [pc] joined to [p], or a single all-NULL [pc] when there is none. *)
Definition left_join_contributors (d : database) (p : pool)
  : list (option pool_contributor) :=
  match filter (fun pc => pc_pool_id pc =? p_id p) (pool_contributors d) with
  | [] => [None]
  | pcs => map Some pcs
  end.

(** [p.owner_id = target_id OR EXISTS (SELECT 1 FROM pool_contributors pc2
     WHERE pc2.pool_id = p.id AND pc2.user_id = target_id)] *)
Definition target_in_pool (d : database) (p : pool) (target_id : option string)
  : option bool :=
  sql_or (sql_eq (Some (p_owner_id p)) target_id)
         (Some (existsb
                  (fun pc2 =>
                     holds (sql_and (Some (pc_pool_id pc2 =? p_id p))
                                    (sql_eq (Some (pc_user_id pc2)) target_id)))
                  (pool_contributors d))).

(** The first [EXISTS]: both are in one pool, as owner or contributor. *)
Definition same_pool (d : database) (viewer_id target_id : option string)
  : bool :=
  existsb
    (fun p =>
       existsb
         (fun pc =>
            holds (sql_and
                     (sql_or (sql_eq (Some (p_owner_id p)) viewer_id)
                             (sql_eq (option_map pc_user_id pc) viewer_id))
                     (target_in_pool d p target_id)))
         (left_join_contributors d p))
    (pools d).

(** The second [EXISTS]: the viewer owns a server, the target is in a pool
    assigned to it. *)
Definition shared_server (d : database) (viewer_id target_id : option string)
  : bool :=
  existsb
    (fun s =>
       existsb
         (fun spa =>
            existsb
              (fun p =>
                 existsb
                   (fun pc =>
                      holds (sql_and
                               (sql_eq (Some (s_owner_id s)) viewer_id)
                               (sql_or
                                  (sql_eq (Some (p_owner_id p)) target_id)
                                  (sql_eq (option_map pc_user_id pc)
                                          target_id))))
                   (left_join_contributors d p))
              (filter (fun p => p_id p =? spa_pool_id spa) (pools d)))
         (filter (fun spa => spa_server_id spa =? s_id s)
                 (server_pool_assignments d)))
    (servers d).

Definition users_share_pool (d : database) (viewer_id target_id : option string)
  : bool :=
  same_pool d viewer_id target_id || shared_server d viewer_id target_id.

End Model.

Arguments data {A} r.
Arguments error {A} r.
Arguments pool : clear implicits.
Arguments pool_contributor : clear implicits.
Arguments database : clear implicits.
Arguments world : clear implicits.
Arguments M : clear implicits.
Arguments totals : clear implicits.
Arguments payload : clear implicits.
Arguments request : clear implicits.
Arguments response_body : clear implicits.
Arguments response : clear implicits.

(** * Vocabulary of the statements *)

Section Vocabulary.

Context {num : Type} `{JsNumber num}.

(** [u] is the owner of pool [p] or has a contributor row for it. *)
Definition pool_member (d : database num) (p : pool num) (u : string) : Prop :=
  p_owner_id p = u \/
  exists c, In c (pool_contributors d) /\ pc_pool_id c = p_id p
            /\ pc_user_id c = u.

(** The world after one store call: a planned outcome is used up and the
    call is on the trace. *)
Definition called (w : world num) (c : call) : world num :=
  {| db := db w; faults := tl (faults w); trace := trace w ++ [c] |}.

(** The world after the token check. *)
Definition checked (w : world num) (token : string) : world num :=
  {| db := db w; faults := faults w; trace := trace w ++ [AuthGetUser token] |}.

Definition with_db (w : world num) (d : database num) : world num :=
  {| db := d; faults := faults w; trace := trace w |}.

(** A world in which no store call is going to fail. *)
Definition quiet (d : database num) (tr : list call) : world num :=
  {| db := d; faults := []; trace := tr |}.

(** Whether the next store call of [w] goes through. *)
Definition up (w : world num) : bool := negb (hd false (faults w)).

(** A computation only ever adds calls at the end of the trace. *)
Definition extends {A : Type} (m : M num A) : Prop :=
  forall w, exists rest, trace (snd (m w)) = trace w ++ rest.

(** The scoped update of a heartbeat or a disconnect. *)
Definition heartbeat_call (contributorId user : string) : call :=
  From pool_contributors_table Update
       [("id", contributorId); ("user_id", user)].


(** The pair the [UNIQUE(pool_id, user_id)] constraint is about. *)
Definition membership (c : pool_contributor num) : string * string :=
  (pc_pool_id c, pc_user_id c).

(** The row is the one of [user] in pool [poolId]. *)
Definition member_row (poolId user : string) (c : pool_contributor num)
  : bool :=
  (pc_pool_id c =? poolId) && (pc_user_id c =? user).

(** A [null] counted as 0. *)
Definition null_as_zero (x : option num) : num :=
  match x with
  | Some n => n
  | None => num_zero
  end.

(** The sum of one resource column over the rows of a pool whose status is
    ["online"], in table order. *)
Definition online_sum (column : pool_contributor num -> option num)
    (poolId : string) (d : database num) : num :=
  fold_left (fun acc c => num_add acc (null_as_zero (column c)))
            (filter (fun c => (pc_pool_id c =? poolId)
                              && (pc_status c =? "online"))
                    (pool_contributors d))
            num_zero.

(** The cached totals of pool [p] are the sums over its online
    contributors. *)
Definition totals_consistent (d : database num) (p : pool num) : Prop :=
  p_total_cpu_cores p = Some (online_sum pc_cpu_cores (p_id p) d) /\
  p_total_ram_gb p = Some (online_sum pc_ram_gb (p_id p) d) /\
  p_total_storage_gb p = Some (online_sum pc_storage_gb (p_id p) d).

(** A value sent in a request, 0 when the property is left out. *)
Definition sent_or_zero (x : js num) : num :=
  match x with
  | Val n => n
  | _ => num_zero
  end.

(** What a run of [updatePoolTotals] whose two store calls go through does
    to the tables. *)
Definition aggregate (poolId : string) (d : database num) : database num :=
  set_pools d
    (map (fun p => if p_id p =? poolId
                   then with_totals
                          (fold_left add_contributor
                             (online_of poolId (pool_contributors d))
                             zero_totals) p
                   else p)
         (pools d)).

End Vocabulary.

(** * Sample data *)

Section Samples.

Context {num : Type}.

(** The state of the asymmetry: [owner] owns server [S], assigned to pool
    [P]; [P] is owned by [boss] and has the one contributor [member]. *)
Definition backing_pool : pool num :=
  {| p_id := "P"; p_owner_id := "boss"; p_name := "shared";
     p_invite_code := "INVITE01";
     p_total_cpu_cores := None; p_total_ram_gb := None;
     p_total_storage_gb := None |}.

Definition backing_contributor : pool_contributor num :=
  {| pc_id := "c1"; pc_pool_id := "P"; pc_user_id := "member";
     pc_cpu_cores := None; pc_ram_gb := None; pc_storage_gb := None;
     pc_status := "offline"; pc_last_seen := None |}.

Definition backed_server : server := {| s_id := "S"; s_owner_id := "owner" |}.

Definition backing_assignment : server_pool_assignment :=
  {| spa_id := "a1"; spa_server_id := "S"; spa_pool_id := "P" |}.

Definition backed_state : database num :=
  {| pools := [backing_pool];
     pool_contributors := [backing_contributor];
     servers := [backed_server];
     server_pool_assignments := [backing_assignment] |}.

End Samples.

Arguments backing_pool : clear implicits.
Arguments backing_contributor : clear implicits.
Arguments backed_state : clear implicits.

(** A pool with one online contributor [c1] of user [A], as left by
    [A]'s registration with 4 cores, 8 GB of RAM and 50 GB of storage. *)
Definition lone_pool : pool Z :=
  {| p_id := "P"; p_owner_id := "boss"; p_name := "shared";
     p_invite_code := "INVITE01";
     p_total_cpu_cores := Some 4%Z; p_total_ram_gb := Some 8%Z;
     p_total_storage_gb := Some 50%Z |}.

Definition lone_pool_store : database Z :=
  {| pools := [lone_pool]; pool_contributors := [];
     servers := []; server_pool_assignments := [] |}.

Definition row_of_A_at (time : string) : pool_contributor Z :=
  {| pc_id := "c1"; pc_pool_id := "P"; pc_user_id := "A";
     pc_cpu_cores := Some 4%Z; pc_ram_gb := Some 8%Z;
     pc_storage_gb := Some 50%Z;
     pc_status := "online"; pc_last_seen := Some time |}.

Definition joined_store_at (time : string) : database Z :=
  {| pools := [lone_pool]; pool_contributors := [row_of_A_at time];
     servers := []; server_pool_assignments := [] |}.

Definition row_of_A : pool_contributor Z := row_of_A_at "09:00".

Definition joined_store : database Z := joined_store_at "09:00".

(** The same pool before anyone has joined. *)
Definition empty_pool : pool Z :=
  {| p_id := "P"; p_owner_id := "boss"; p_name := "shared";
     p_invite_code := "INVITE01";
     p_total_cpu_cores := Some 0%Z; p_total_ram_gb := Some 0%Z;
     p_total_storage_gb := Some 0%Z |}.

Definition empty_pool_store : database Z :=
  {| pools := [empty_pool]; pool_contributors := [];
     servers := []; server_pool_assignments := [] |}.

(** Two users with their tokens; the clock and the next generated id. *)
Definition tokens (token : string) : option string :=
  if token =? "token-A" then Some "A"
  else if token =? "token-B" then Some "B"
  else None.

Definition at_ten : env :=
  {| getUser := tokens; now := "10:00"; fresh_id := "c1" |}.

Definition at_eleven : env :=
  {| getUser := tokens; now := "11:00"; fresh_id := "c2" |}.

Definition register_body (cpu ram storage : js Z) : payload Z :=
  {| b_pool_id := Some "P"; b_contributor_id := None; b_status := None;
     b_cpu_cores := cpu; b_ram_gb := ram; b_storage_gb := storage |}.

Definition contributor_body (contributorId : string) (st : option string)
    (cpu : js Z) : payload Z :=
  {| b_pool_id := None; b_contributor_id := Some contributorId;
     b_status := st;
     b_cpu_cores := cpu; b_ram_gb := Undefined; b_storage_gb := Undefined |}.

Definition post (route header : string) (b : payload Z) : request Z :=
  {| method := "POST"; pathname := "/agent-api" ++ route;
     authorization := Some header; json := Some b |}.

(** [A] registers 4 cores, 8 GB and 50 GB in the empty pool, then
    disconnects. *)
Definition registration : request Z :=
  post "/register" "Bearer token-A"
       (register_body (Val 4%Z) (Val 8%Z) (Val 50%Z)).

Definition after_registration : world Z :=
  snd (serve at_ten registration (quiet empty_pool_store [])).

Definition disconnection : response Z * world Z :=
  serve at_eleven
        (post "/disconnect" "Bearer token-A"
              (contributor_body "c1" None Undefined))
        after_registration.

(** Instead of disconnecting, [A] sends a heartbeat with only
    [status: "offline"]. *)
Definition offline_heartbeat : response Z * world Z :=
  serve at_eleven
        (post "/heartbeat" "Bearer token-A"
              (contributor_body "c1" (Some "offline") Undefined))
        after_registration.

(** [A]'s registration when the fourth store call, the aggregator's read,
    fails. *)
Definition unaggregated_registration : response Z * world Z :=
  serve at_ten registration
        {| db := empty_pool_store;
           faults := [false; false; false; true];
           trace := [] |}.

(** [B] names [A]'s row in a heartbeat and in a disconnect, and a row that
    does not exist in a heartbeat. *)
Definition stolen_heartbeat : response Z * world Z :=
  serve at_ten
        (post "/heartbeat" "Bearer token-B"
              (contributor_body "c1" None (Val 64%Z)))
        (quiet joined_store []).

Definition stolen_disconnect : response Z * world Z :=
  serve at_ten
        (post "/disconnect" "Bearer token-B"
              (contributor_body "c1" None Undefined))
        (quiet joined_store []).

Definition unknown_heartbeat : response Z * world Z :=
  serve at_ten
        (post "/heartbeat" "Bearer token-B"
              (contributor_body "c9" None Undefined))
        (quiet joined_store []).

(** The aggregator on a pool without contributors, with a read that fails
    and with a read that works. *)
Definition failing_read : world Z :=
  {| db := lone_pool_store; faults := [true]; trace := [] |}.

Definition working_read : world Z := quiet lone_pool_store [].

(** [A] registers twice, the second time with 2 cores and nothing else. *)
Definition first_registration : payload Z :=
  register_body (Val 4%Z) (Val 8%Z) (Val 50%Z).

Definition second_registration : payload Z :=
  register_body (Val 2%Z) Undefined Undefined.

Definition registered_twice : world Z :=
  snd (register at_eleven "A" second_registration
         (snd (register at_ten "A" first_registration
                 (quiet empty_pool_store [])))).

(** * The profile policy and the caller of a request *)

Section Policies.

Context {num : Type} `{JsNumber num}.

(** The policy "Users can view related profiles" of migration
    20260105105842, on the profile row of [user_id] for the session user
    [uid] ([auth.uid()], NULL without a session):
    [auth.uid() = user_id OR public.users_share_pool(auth.uid(), user_id)].
    A [USING] clause lets a row through when it is true. *)
Definition users_can_view_related_profiles (d : database num)
    (uid : option string) (user_id : string) : bool :=
  holds (sql_or (sql_eq uid (Some user_id))
                (Some (users_share_pool d uid (Some user_id)))).

(** The user a request acts for: the one its token resolves to, when the
    handler gets as far as asking. *)
Definition caller (e : env) (req : request num) : option string :=
  if method req =? "OPTIONS" then None
  else if truthy_str (authorization req)
       then getUser e (replace "Bearer " "" (str_or (authorization req) ""))
       else None.

(** The route of a request, once the function prefix is taken out. *)
Definition route (req : request num) : string :=
  replace "/agent-api" "" (pathname req).

(** The columns of a pool that identify it. *)
Definition pool_identity (p : pool num)
  : string * string * string * string :=
  (p_id p, p_owner_id p, p_name p, p_invite_code p).

(** The columns of a contributor row that identify it. *)
Definition row_identity (c : pool_contributor num)
  : string * string * string :=
  (pc_id c, pc_pool_id c, pc_user_id c).

(** What one request of user [u] may have done to the tables: servers,
    assignments and the identity of the pools are as before; no contributor
    row has gone and the ids of before are in place; the rows of every other
    user are as before; the keys of the contributor table still hold if
    they did. *)
Definition api_step (u : string) (d d' : database num) : Prop :=
  servers d' = servers d /\
  server_pool_assignments d' = server_pool_assignments d /\
  map pool_identity (pools d') = map pool_identity (pools d) /\
  (exists added,
      map row_identity (pool_contributors d') =
      map row_identity (pool_contributors d) ++ added) /\
  (forall v, v <> u ->
             filter (fun c => pc_user_id c =? v) (pool_contributors d') =
             filter (fun c => pc_user_id c =? v) (pool_contributors d)) /\
  (NoDup (map pc_id (pool_contributors d)) ->
   NoDup (map pc_id (pool_contributors d'))) /\
  (NoDup (map membership (pool_contributors d)) ->
   NoDup (map membership (pool_contributors d'))).

(** Every run of [m] is such a step. *)
Definition keeps (u : string) {A : Type} (m : M num A) : Prop :=
  forall w, api_step u (db w) (db (snd (m w))).

(** [m] leaves the tables alone. *)
Definition reads_only {A : Type} (m : M num A) : Prop :=
  forall w, db (snd (m w)) = db w.

End Policies.

(** More sample requests: a GET, and a POST without the function prefix. *)
Definition get (path header : string) : request Z :=
  {| method := "GET"; pathname := "/agent-api" ++ path;
     authorization := Some header; json := None |}.

Definition post_unprefixed (path header : string) (b : payload Z)
  : request Z :=
  {| method := "POST"; pathname := path;
     authorization := Some header; json := Some b |}.

(** A store that answers none of the next two calls. *)
Definition store_down : world Z :=
  {| db := joined_store; faults := [true; true]; trace := [] |}.

(** A store whose second call fails. *)
Definition second_call_fails : world Z :=
  {| db := joined_store; faults := [false; true]; trace := [] |}.

(** [A]'s heartbeat with 16 cores and a null RAM. *)
Definition resized : payload Z :=
  {| b_pool_id := None; b_contributor_id := Some "c1"; b_status := None;
     b_cpu_cores := Val 16%Z; b_ram_gb := Null; b_storage_gb := Undefined |}.

(** * Properties of [users_share_pool] *)

Section Visibility.

Context {num : Type} `{JsNumber num}.

Lemma sql_or_true_l (b : option bool) : sql_or (Some true) b = Some true.
Proof. reflexivity. Qed.

Lemma sql_or_true_r (a : option bool) : sql_or a (Some true) = Some true.
Proof. destruct a as [[|]|]; reflexivity. Qed.

Lemma sql_eq_same (x : string) : sql_eq (Some x) (Some x) = Some true.
Proof. simpl. now rewrite String.eqb_refl. Qed.

Lemma left_join_inhabited (d : database num) (p : pool num) :
  exists pc, In pc (left_join_contributors d p).
Proof.
  unfold left_join_contributors.
  destruct (filter _ _) as [|c cs].
  - exists None. now left.
  - exists (Some c). now left.
Qed.

Lemma left_join_contributor (d : database num) (p : pool num)
    (c : pool_contributor num) :
  In c (pool_contributors d) -> pc_pool_id c = p_id p ->
  In (Some c) (left_join_contributors d p).
Proof.
  intros Hin Hp. unfold left_join_contributors.
  assert (Hf : In c (filter (fun pc => pc_pool_id pc =? p_id p)
                            (pool_contributors d))).
  { apply filter_In. split; [assumption|]. now apply String.eqb_eq. }
  destruct (filter _ _) as [|c0 cs]; [contradiction|].
  now apply in_map.
Qed.

Lemma target_in_pool_member (d : database num) (p : pool num) (t : string) :
  pool_member d p t -> target_in_pool d p (Some t) = Some true.
Proof.
  intros [Ho | (c & Hin & Hp & Hu)]; unfold target_in_pool.
  - subst t. now rewrite sql_eq_same.
  - match goal with
    | |- sql_or _ (Some ?e) = _ => assert (E : e = true)
    end.
    { apply existsb_exists. exists c. split; [assumption|].
      rewrite Hp, Hu, String.eqb_refl, sql_eq_same. reflexivity. }
    rewrite E. apply sql_or_true_r.
Qed.

(** Two members of one pool pass the first [EXISTS]. *)
Lemma same_pool_members (d : database num) (p : pool num) (a b : string) :
  In p (pools d) -> pool_member d p a -> pool_member d p b ->
  same_pool d (Some a) (Some b) = true.
Proof.
  intros Hp Ha Hb. unfold same_pool.
  apply existsb_exists. exists p. split; [assumption|].
  apply existsb_exists.
  rewrite (target_in_pool_member d p b Hb).
  destruct Ha as [Ho | (c & Hin & Hcp & Hu)].
  - destruct (left_join_inhabited d p) as [pc Hpc].
    exists pc. split; [assumption|].
    subst a. now rewrite sql_eq_same.
  - exists (Some c). split; [now apply left_join_contributor|].
    simpl option_map. subst a. rewrite sql_eq_same, sql_or_true_r.
    reflexivity.
Qed.

(** The owner of a server passes the second [EXISTS] for every member of a
    pool assigned to that server. *)
Lemma shared_server_members (d : database num) (s : server)
    (spa : server_pool_assignment) (p : pool num) (t : string) :
  In s (servers d) ->
  In spa (server_pool_assignments d) -> spa_server_id spa = s_id s ->
  In p (pools d) -> p_id p = spa_pool_id spa ->
  pool_member d p t ->
  shared_server d (Some (s_owner_id s)) (Some t) = true.
Proof.
  intros Hs Hspa Hsid Hp Hpid Ht. unfold shared_server.
  apply existsb_exists. exists s. split; [assumption|].
  apply existsb_exists. exists spa. split.
  { apply filter_In. split; [assumption|]. now apply String.eqb_eq. }
  apply existsb_exists. exists p. split.
  { apply filter_In. split; [assumption|]. now apply String.eqb_eq. }
  apply existsb_exists. rewrite sql_eq_same.
  destruct Ht as [Ho | (c & Hin & Hcp & Hu)].
  - destruct (left_join_inhabited d p) as [pc Hpc].
    exists pc. split; [assumption|].
    subst t. now rewrite sql_eq_same.
  - exists (Some c). split; [now apply left_join_contributor|].
    simpl option_map. subst t. rewrite sql_eq_same, sql_or_true_r.
    reflexivity.
Qed.

(** C6, for the owners and contributors of pools.  [users_share_pool] is
    reflexive on every user who is the owner of or a contributor to at least
    one pool, and it holds in both directions between any two users who are
    each owner of or contributor to one same pool.  Owning a server that is
    assigned to a pool is not enough for reflexivity. *)
Theorem users_share_pool_reflexive_symmetric (d : database num) :
  (forall (u : string) (p : pool num),
      In p (pools d) -> pool_member d p u ->
      users_share_pool d (Some u) (Some u) = true) /\
  (forall (a b : string) (p : pool num),
      In p (pools d) -> pool_member d p a -> pool_member d p b ->
      users_share_pool d (Some a) (Some b) = true /\
      users_share_pool d (Some b) (Some a) = true).
Proof.
  split.
  - intros u p Hp Hu. unfold users_share_pool.
    now rewrite (same_pool_members d p u u).
  - intros a b p Hp Ha Hb. unfold users_share_pool.
    rewrite (same_pool_members d p a b), (same_pool_members d p b a);
      auto.
Qed.

(** C7.  The owner of a server assigned to pool [p] shares a pool with every
    owner or contributor of [p]; and the grant is one-way: in
    [backed_state] the server owner sees the pool's contributor while the
    contributor does not see the server owner. *)
Theorem users_share_pool_server_owner_asymmetric :
  (forall (d : database num) (s : server) (spa : server_pool_assignment)
          (p : pool num) (viewer t : string),
      In s (servers d) -> s_owner_id s = viewer ->
      In spa (server_pool_assignments d) -> spa_server_id spa = s_id s ->
      In p (pools d) -> p_id p = spa_pool_id spa ->
      pool_member d p t ->
      users_share_pool d (Some viewer) (Some t) = true) /\
  (In backed_server (servers (backed_state num)) /\
   In backing_assignment (server_pool_assignments (backed_state num)) /\
   spa_server_id backing_assignment = s_id backed_server /\
   In (backing_pool num) (pools (backed_state num)) /\
   p_id (backing_pool num) = spa_pool_id backing_assignment /\
   pool_member (backed_state num) (backing_pool num) "member" /\
   users_share_pool (backed_state num) (Some (s_owner_id backed_server))
                    (Some "member") = true /\
   users_share_pool (backed_state num) (Some "member")
                    (Some (s_owner_id backed_server)) = false).
Proof.
  split.
  - intros d s spa p viewer t Hs Hv Hspa Hsid Hp Hpid Ht.
    subst viewer. unfold users_share_pool.
    rewrite (shared_server_members d s spa p t); auto.
    apply orb_true_r.
  - repeat split; try (now left); try reflexivity.
    right. exists (backing_contributor num). repeat split. now left.
Qed.

End Visibility.


(** * Properties of the agent API *)

Section Strings.

Lemma replace_unfold (pat rep s : string) :
  replace pat rep s =
  (if String.prefix pat s then rep ++ drop (String.length pat) s
   else match s with
       | EmptyString => EmptyString
       | String c s' => String c (replace pat rep s')
       end)%string.
Proof. destruct s; reflexivity. Qed.

Lemma prefix_empty (s : string) : String.prefix EmptyString s = true.
Proof. destruct s; reflexivity. Qed.

Lemma prefix_append (pat post : string) :
  String.prefix pat (pat ++ post)%string = true.
Proof.
  induction pat as [|a pat IH]; simpl; [apply prefix_empty|].
  destruct (ascii_dec a a); [assumption | congruence].
Qed.

Lemma prefix_split (pat s : string) :
  String.prefix pat s = true -> exists post, s = (pat ++ post)%string.
Proof.
  revert s. induction pat as [|a pat IH]; intros s Hp.
  - now exists s.
  - destruct s as [|b s]; [discriminate|]. simpl in Hp.
    destruct (ascii_dec a b) as [->|]; [|discriminate].
    destruct (IH s Hp) as [post ->]. now exists post.
Qed.

Lemma drop_append (pat post : string) :
  drop (String.length pat) (pat ++ post)%string = post.
Proof. induction pat; simpl; auto. Qed.

Lemma includes_unfold (s pat : string) :
  includes s pat =
  String.prefix pat s ||
  match s with
  | EmptyString => false
  | String _ s' => includes s' pat
  end.
Proof. destruct s; reflexivity. Qed.

(** Without an occurrence of the pattern, [replace] returns its subject. *)
Lemma replace_absent (pat rep s : string) :
  includes s pat = false -> replace pat rep s = s.
Proof.
  induction s as [|c s IH]; intros Hi; rewrite replace_unfold;
    rewrite includes_unfold in Hi; apply orb_false_iff in Hi;
    destruct Hi as [Hp Hr]; rewrite Hp; [reflexivity|].
  now rewrite IH.
Qed.

(** [replace] rewrites the leftmost occurrence of the pattern, and only
    that one. *)
Lemma replace_leftmost (pat rep : string) :
  forall pre s post,
    s = (pre ++ pat ++ post)%string ->
    (forall pre' post', s = (pre' ++ pat ++ post')%string ->
                        String.length pre <= String.length pre') ->
    replace pat rep s = (pre ++ rep ++ post)%string.
Proof.
  induction pre as [|c pre IH]; intros s post Hs Hmin;
    rewrite replace_unfold; subst s.
  - change (EmptyString ++ pat ++ post)%string with (pat ++ post)%string.
    now rewrite prefix_append, drop_append.
  - change (String c pre ++ pat ++ post)%string
      with (String c (pre ++ pat ++ post)%string) in *.
    destruct (String.prefix pat (String c (pre ++ pat ++ post)%string)) eqn:Hp.
    + apply prefix_split in Hp. destruct Hp as [post' Hp].
      specialize (Hmin EmptyString post' Hp). simpl in Hmin. lia.
    + change (String c pre ++ rep ++ post)%string
        with (String c (pre ++ rep ++ post)%string).
      f_equal. apply IH; [reflexivity|].
      intros pre' post' Hs'.
      specialize (Hmin (String c pre') post'). simpl in Hmin.
      rewrite Hs' in Hmin. specialize (Hmin eq_refl). lia.
Qed.

End Strings.

Section AgentApi.

Context {num : Type} `{JsNumber num}.

Lemma store_call_run (t : table) (v : verb) (eqs : list (string * string))
    (w : world num) :
  store_call t v eqs w = (up w, called w (From t v eqs)).
Proof.
  unfold store_call, bind, log, next_ok, up, called. simpl.
  destruct (faults w); reflexivity.
Qed.

Lemma select_pool_single_run (col : string) (key : pool num -> string)
    (v : string) (w : world num) :
  select_pool_single col key v w =
  (if up w then single (filter (fun p => key p =? v) (pools (db w)))
   else failed,
   called w (From pools_table Select [(col, v)])).
Proof.
  unfold select_pool_single, bind. rewrite store_call_run. reflexivity.
Qed.

Lemma select_existing_run (poolId userId : string) (w : world num) :
  select_existing poolId userId w =
  (if up w
   then single (filter (fun c => (pc_pool_id c =? poolId)
                                 && (pc_user_id c =? userId))
                       (pool_contributors (db w)))
   else failed,
   called w (From pool_contributors_table Select
               [("pool_id", poolId); ("user_id", userId)])).
Proof.
  unfold select_existing, bind. rewrite store_call_run. reflexivity.
Qed.

Lemma update_single_run (eqs : list (string * string))
    (matches : pool_contributor num -> bool)
    (change : pool_contributor num -> pool_contributor num) (w : world num) :
  update_single eqs matches change w =
  let w1 := called w (From pool_contributors_table Update eqs) in
  if up w then
    match filter matches (pool_contributors (db w)) with
    | [c] =>
        (ok (change c),
         with_db w1 (set_pool_contributors (db w)
                       (map (fun r => if matches r then change r else r)
                            (pool_contributors (db w)))))
    | _ => (failed, w1)
    end
  else (failed, w1).
Proof.
  unfold update_single, bind. rewrite store_call_run. simpl.
  destruct (up w); [|reflexivity].
  destruct (filter matches (pool_contributors (db w))) as [|c [|c' l]];
    reflexivity.
Qed.

Lemma updatePoolTotals_run (poolId : string) (w : world num) :
  updatePoolTotals poolId w =
  let w1 := called w (From pool_contributors_table Select
                        [("pool_id", poolId); ("status", "online")]) in
  if up w then
    let w2 := called w1 (From pools_table Update [("id", poolId)]) in
    if up w1 then
      (tt, with_db w2
             (set_pools (db w)
                (map (fun p => if p_id p =? poolId
                               then with_totals
                                      (fold_left add_contributor
                                         (online_of poolId
                                            (pool_contributors (db w)))
                                         zero_totals) p
                               else p)
                     (pools (db w)))))
    else (tt, w2)
  else (tt, w1).
Proof.
  unfold updatePoolTotals, bind. rewrite store_call_run. simpl.
  destruct (up w); [|reflexivity].
  rewrite store_call_run.
  destruct (up (called w _)); reflexivity.
Qed.

(** The aggregator never touches the contributor rows. *)
Lemma updatePoolTotals_contributors (poolId : string) (w : world num) :
  pool_contributors (db (snd (updatePoolTotals poolId w))) =
  pool_contributors (db w).
Proof.
  rewrite updatePoolTotals_run. simpl.
  destruct (up w); [|reflexivity].
  destruct (up (called w _)); reflexivity.
Qed.

(** C10.  [updatePoolTotals] writes the three totals only when its read of
    the online contributors gives a list.  When the read fails, it stops
    there: the store is left as it was and no update is issued.  When the
    read gives the empty list (and the write goes through), the totals of
    the pool are overwritten with 0 and nothing else changes. *)
Theorem updatePoolTotals_read_guard (poolId : string) (w : world num) :
  (hd false (faults w) = true ->
   db (snd (updatePoolTotals poolId w)) = db w /\
   trace (snd (updatePoolTotals poolId w)) =
     trace w ++ [From pool_contributors_table Select
                   [("pool_id", poolId); ("status", "online")]]) /\
  (hd false (faults w) = false -> hd false (tl (faults w)) = false ->
   online_of poolId (pool_contributors (db w)) = [] ->
   pools (db (snd (updatePoolTotals poolId w))) =
     map (fun p =>
            if p_id p =? poolId
            then {| p_id := p_id p;
                    p_owner_id := p_owner_id p;
                    p_name := p_name p;
                    p_invite_code := p_invite_code p;
                    p_total_cpu_cores := Some num_zero;
                    p_total_ram_gb := Some num_zero;
                    p_total_storage_gb := Some num_zero |}
            else p)
         (pools (db w)) /\
   pool_contributors (db (snd (updatePoolTotals poolId w))) =
     pool_contributors (db w) /\
   trace (snd (updatePoolTotals poolId w)) =
     trace w ++ [From pool_contributors_table Select
                   [("pool_id", poolId); ("status", "online")];
                 From pools_table Update [("id", poolId)]]).
Proof.
  rewrite updatePoolTotals_run. cbv zeta. unfold up. split.
  - intros Hf. rewrite Hf. simpl. auto.
  - intros Hf Hf' Hnone. rewrite Hf. simpl. rewrite Hf'. simpl.
    rewrite Hnone. simpl. repeat split.
    now rewrite <- app_assoc.
Qed.

(** ** The trace only grows *)

Lemma extends_ret {A : Type} (a : A) : extends (num:=num) (ret a).
Proof. intros w. exists []. simpl. now rewrite app_nil_r. Qed.

Lemma extends_bind {A B : Type} (m : M num A) (k : A -> M num B) :
  extends m -> (forall a, extends (k a)) -> extends (bind m k).
Proof.
  intros Hm Hk w. unfold bind.
  destruct (Hm w) as [r1 H1]. destruct (m w) as [a w1]. simpl in H1.
  destruct (Hk a w1) as [r2 H2].
  exists (r1 ++ r2). now rewrite H2, H1, app_assoc.
Qed.

Lemma extends_get_db : extends (num:=num) get_db.
Proof. intros w. exists []. simpl. now rewrite app_nil_r. Qed.

Lemma extends_put_db (d : database num) : extends (put_db d).
Proof. intros w. exists []. simpl. now rewrite app_nil_r. Qed.

Lemma extends_log (c : call) : extends (num:=num) (log c).
Proof. intros w. now exists [c]. Qed.

Lemma extends_store_call (t : table) (v : verb)
    (eqs : list (string * string)) :
  extends (num:=num) (store_call t v eqs).
Proof. intros w. rewrite store_call_run. now exists [From t v eqs]. Qed.

Ltac extends_step :=
  first
    [ apply extends_ret
    | apply extends_get_db
    | apply extends_put_db
    | apply extends_log
    | apply extends_store_call
    | apply extends_bind; [|intros ?]
    | match goal with
      | |- extends (if ?b then _ else _) => destruct b
      | |- extends (match ?x with _ => _ end) => destruct x
      end ].

Ltac extends_auto := repeat extends_step.

Lemma extends_updatePoolTotals (poolId : string) :
  extends (updatePoolTotals poolId).
Proof. unfold updatePoolTotals. extends_auto. Qed.

Lemma extends_select_pool_single (col : string) (key : pool num -> string)
    (v : string) :
  extends (select_pool_single col key v).
Proof. unfold select_pool_single. extends_auto. Qed.

Lemma extends_update_single (eqs : list (string * string))
    (matches : pool_contributor num -> bool)
    (change : pool_contributor num -> pool_contributor num) :
  extends (update_single eqs matches change).
Proof. unfold update_single. extends_auto. Qed.

Lemma extends_register (e : env) (user : string) (b : payload num) :
  extends (register e user b).
Proof.
  unfold register, select_existing, insert_contributor, internal_error,
    respond.
  repeat first [ apply extends_updatePoolTotals
               | apply extends_select_pool_single
               | apply extends_update_single
               | extends_step ].
Qed.

Lemma extends_heartbeat (e : env) (user : string) (b : payload num) :
  extends (heartbeat e user b).
Proof.
  unfold heartbeat, internal_error, respond.
  repeat first [ apply extends_updatePoolTotals
               | apply extends_update_single
               | extends_step ].
Qed.

Lemma extends_disconnect (e : env) (user : string) (b : payload num) :
  extends (disconnect e user b).
Proof.
  unfold disconnect, respond.
  repeat first [ apply extends_update_single | extends_step ].
Qed.

Lemma extends_dispatch (e : env) (req : request num) (path user : string) :
  extends (dispatch e req path user).
Proof.
  unfold dispatch, with_json, list_pools, get_pool, lookup_invite,
    internal_error, respond.
  repeat first [ apply extends_register
               | apply extends_heartbeat
               | apply extends_disconnect
               | apply extends_select_pool_single
               | extends_step ].
Qed.

(** ** Authentication *)

Lemma not_options (req : request num) :
  method req <> "OPTIONS" -> (method req =? "OPTIONS") = false.
Proof. intros Hm. now apply String.eqb_neq. Qed.

Lemma truthy_header (h : string) :
  h <> "" -> truthy_str (Some h) = true /\ str_or (Some h) "" = h.
Proof.
  intros Hh. apply String.eqb_neq in Hh. simpl. now rewrite Hh.
Qed.

(** A request with a header runs the token check on the header with the
    first ["Bearer "] taken out, and goes on according to its answer. *)
Lemma serve_with_header (e : env) (req : request num) (w : world num)
    (h : string) :
  method req <> "OPTIONS" -> authorization req = Some h -> h <> "" ->
  serve e req w =
  let token := replace "Bearer " "" h in
  match getUser e token with
  | None => ({| status := 401; body := ErrorBody "Invalid or expired token" |},
             checked w token)
  | Some u =>
      dispatch e req (replace "/agent-api" "" (pathname req)) u
               (checked w token)
  end.
Proof.
  intros Hm Ha Hh. unfold serve.
  rewrite (not_options req Hm), Ha.
  destruct (truthy_header h Hh) as [-> ->]. simpl.
  unfold bind, auth_getUser, bind, log, ret, checked. simpl.
  destruct (getUser e (replace "Bearer " "" h)); reflexivity.
Qed.

(** C8.  A request other than the CORS preflight whose Authorization header
    is missing, or whose token the verifier does not resolve to a user, is
    answered with 401 whatever its route: the store is neither read nor
    written (no store call is made, none of the planned outcomes is used,
    the tables are as before), and the answer is the same for every other
    request carrying the same header. *)
Theorem unauthenticated_rejected (e : env) (req : request num)
    (w : world num) :
  method req <> "OPTIONS" ->
  (authorization req = None \/
   exists h, authorization req = Some h /\
             getUser e (replace "Bearer " "" h) = None) ->
  status (fst (serve e req w)) = 401 /\
  db (snd (serve e req w)) = db w /\
  faults (snd (serve e req w)) = faults w /\
  (forall c, In c (trace (snd (serve e req w))) ->
             In c (trace w) \/ exists token, c = AuthGetUser token) /\
  (forall (req' : request num) (w' : world num),
      method req' <> "OPTIONS" -> authorization req' = authorization req ->
      fst (serve e req' w') = fst (serve e req w)).
Proof.
  intros Hm Hauth.
  assert (Hmissing : forall (r : request num) (v : world num),
             method r <> "OPTIONS" ->
             truthy_str (authorization r) = false ->
             serve e r v =
             ({| status := 401;
                 body := ErrorBody "Missing authorization header" |}, v)).
  { intros r v Hr Ht. unfold serve. now rewrite (not_options r Hr), Ht. }
  destruct Hauth as [Hnone | (h & Hsome & Hbad)].
  - assert (Ht : truthy_str (authorization req) = false) by now rewrite Hnone.
    rewrite (Hmissing req w Hm Ht). simpl. repeat split; auto.
    intros req' w' Hm' Ha'. rewrite Hmissing; [reflexivity|assumption|].
    now rewrite Ha'.
  - destruct (String.eqb_spec h "") as [He | Hne].
    + assert (Ht : truthy_str (authorization req) = false)
        by now rewrite Hsome, He.
      rewrite (Hmissing req w Hm Ht). simpl. repeat split; auto.
      intros req' w' Hm' Ha'. rewrite Hmissing; [reflexivity|assumption|].
      now rewrite Ha'.
    + rewrite (serve_with_header e req w h Hm Hsome Hne). cbv zeta.
      rewrite Hbad. simpl. repeat split.
      * intros c Hc. apply in_app_or in Hc. destruct Hc as [Hc | [Hc | []]].
        -- now left.
        -- right. eexists. symmetry. exact Hc.
      * intros req' w' Hm' Ha'.
        rewrite (serve_with_header e req' w' h Hm'); [|congruence|assumption].
        cbv zeta. now rewrite Hbad.
Qed.

(** C9.  A non-empty Authorization header that does not start with
    ["Bearer "] is not treated as missing: the token check runs, on the
    header with the first occurrence of ["Bearer "] taken out (the header
    itself when there is none), and the request is refused or dispatched on
    the verifier's answer alone. *)
Theorem bare_token_forwarded (e : env) (req : request num) (w : world num)
    (h : string) :
  method req <> "OPTIONS" -> authorization req = Some h -> h <> "" ->
  startsWith h "Bearer " = false ->
  let token := replace "Bearer " "" h in
  (exists rest, trace (snd (serve e req w)) =
                trace w ++ AuthGetUser token :: rest) /\
  (includes h "Bearer " = false -> token = h) /\
  (forall pre post,
      h = (pre ++ "Bearer " ++ post)%string ->
      (forall pre' post', h = (pre' ++ "Bearer " ++ post')%string ->
                          String.length pre <= String.length pre') ->
      token = (pre ++ post)%string) /\
  (getUser e token = None ->
   fst (serve e req w) =
   {| status := 401; body := ErrorBody "Invalid or expired token" |}) /\
  (forall u, getUser e token = Some u ->
             serve e req w =
             dispatch e req (replace "/agent-api" "" (pathname req)) u
                      (checked w token)).
Proof.
  intros Hm Ha Hh _ token. subst token.
  rewrite (serve_with_header e req w h Hm Ha Hh). cbv zeta.
  repeat split.
  - destruct (getUser e (replace "Bearer " "" h)) as [u|].
    + destruct (extends_dispatch e req
                  (replace "/agent-api" "" (pathname req)) u
                  (checked w (replace "Bearer " "" h))) as [rest Hr].
      exists rest. rewrite Hr. simpl. now rewrite <- app_assoc.
    + now exists [].
  - apply replace_absent.
  - intros pre post Hs Hmin.
    now rewrite (replace_leftmost "Bearer " "" pre h post Hs Hmin).
  - now intros ->.
  - now intros u ->.
Qed.

(** An authenticated POST to one of the three mutating routes runs the
    operation on the parsed body, for the user the token resolved to. *)
Lemma serve_operation (e : env) (req : request num) (w : world num)
    (h u : string) (b : payload num) :
  method req = "POST" -> authorization req = Some h -> h <> "" ->
  getUser e (replace "Bearer " "" h) = Some u -> json req = Some b ->
  let w1 := checked w (replace "Bearer " "" h) in
  let path := replace "/agent-api" "" (pathname req) in
  (path = "/register" -> serve e req w = register e u b w1) /\
  (path = "/heartbeat" -> serve e req w = heartbeat e u b w1) /\
  (path = "/disconnect" -> serve e req w = disconnect e u b w1).
Proof.
  intros Hm Ha Hh Hu Hj w1 path.
  assert (Hno : method req <> "OPTIONS") by (rewrite Hm; discriminate).
  rewrite (serve_with_header e req w h Hno Ha Hh). cbv zeta.
  rewrite Hu. fold w1 path. unfold dispatch, with_json.
  rewrite Hm, Hj. repeat split; intros ->; reflexivity.
Qed.

(** ** Rows picked by a filter *)

Lemma filter_none {A : Type} (m : A -> bool) (l : list A) :
  (forall r, In r l -> m r = false) -> filter m l = [].
Proof.
  induction l as [|a l IH]; intros Hl; simpl; [reflexivity|].
  rewrite (Hl a (or_introl eq_refl)). apply IH.
  intros r Hr. apply Hl. now right.
Qed.

Lemma filter_nil_none {A : Type} (m : A -> bool) (l : list A) :
  filter m l = [] -> forall r, In r l -> m r = false.
Proof.
  intros Hf r Hr. destruct (m r) eqn:Hm; [|reflexivity].
  assert (Hin : In r (filter m l)) by (apply filter_In; now split).
  rewrite Hf in Hin. contradiction.
Qed.

(** When a filter picks exactly one row, changing the picked rows changes
    that row in place and nothing else. *)
Lemma filter_single_split {A : Type} (m : A -> bool) (f : A -> A)
    (l : list A) (c : A) :
  filter m l = [c] ->
  exists l1 l2,
    l = l1 ++ c :: l2 /\
    map (fun r => if m r then f r else r) l = l1 ++ f c :: l2 /\
    m c = true /\
    (forall r, In r l1 \/ In r l2 -> m r = false).
Proof.
  induction l as [|a l IH]; intros Hf; simpl in Hf; [discriminate|].
  destruct (m a) eqn:Hm.
  - injection Hf as -> Hnil.
    exists [], l. simpl. rewrite Hm. repeat split.
    + f_equal. rewrite <- (map_id l) at 2. apply map_ext_in.
      intros r Hr. now rewrite (filter_nil_none m l Hnil r Hr).
    + intros r [[] | Hr]. now apply (filter_nil_none m l Hnil).
  - destruct (IH Hf) as (l1 & l2 & -> & Hmap & Hc & Hrest).
    exists (a :: l1), l2. simpl. rewrite Hm, Hmap. repeat split; auto.
    intros r [[<- | Hr] | Hr]; auto.
Qed.

(** Under a uniqueness constraint, a row is the only one with its key. *)
Lemma filter_by_key {A K : Type} (key : A -> K) (m : A -> bool)
    (l : list A) (c : A) :
  NoDup (map key l) -> In c l -> m c = true ->
  (forall r, m r = true -> key r = key c) ->
  filter m l = [c].
Proof.
  intros Hnd Hin Hc Hkey.
  induction l as [|a l IH]; [contradiction|].
  simpl in Hnd. inversion Hnd as [|? ? Hnotin Hnd']; subst.
  simpl. destruct Hin as [-> | Hin].
  - rewrite Hc. f_equal. apply filter_none.
    intros r Hr. destruct (m r) eqn:Hm; [|reflexivity].
    exfalso. apply Hnotin. rewrite <- (Hkey r Hm). now apply in_map.
  - destruct (m a) eqn:Hm.
    + exfalso. apply Hnotin. rewrite (Hkey a Hm). now apply in_map.
    + now apply IH.
Qed.

Lemma owned_by_true (contributorId user : string)
    (c : pool_contributor num) :
  owned_by contributorId user c = true <->
  pc_id c = contributorId /\ pc_user_id c = user.
Proof.
  unfold owned_by. rewrite andb_true_iff, !String.eqb_eq. reflexivity.
Qed.

Lemma truthy_id (b : option string) (x : string) :
  b = Some x -> x <> "" -> truthy_str b = true /\ str_or b "" = x.
Proof. intros ->. apply truthy_header. Qed.

(** ** What the three mutating operations do *)

(** A heartbeat or disconnect with a usable [contributor_id]: the scoped
    update, answered with 500 unless exactly one row matched. *)
Lemma heartbeat_run (e : env) (user : string) (b : payload num)
    (w : world num) (contributorId : string) :
  b_contributor_id b = Some contributorId -> contributorId <> "" ->
  heartbeat e user b w =
  let w1 := called w (heartbeat_call contributorId user) in
  let received := {| status := 200; body := Success "Heartbeat received" |} in
  let refused :=
    {| status := 500; body := ErrorBody "Failed to update heartbeat" |} in
  if up w then
    match filter (owned_by contributorId user) (pool_contributors (db w)) with
    | [c] =>
        let w2 :=
          with_db w1
            (set_pool_contributors (db w)
               (map (fun r => if owned_by contributorId user r
                              then heartbeat_update e b r else r)
                    (pool_contributors (db w)))) in
        if resources_present b
        then (received, snd (updatePoolTotals (pc_pool_id c) w2))
        else (received, w2)
    | _ => (refused, w1)
    end
  else (refused, w1).
Proof.
  intros Hid Hne. unfold heartbeat.
  destruct (truthy_id _ _ Hid Hne) as [-> ->]. cbn [negb].
  cbv beta iota zeta. unfold bind. rewrite update_single_run. cbv zeta.
  fold (heartbeat_call contributorId user).
  destruct (up w); [|reflexivity].
  destruct (filter _ _) as [|c [|c' l]]; try reflexivity.
  cbn [error data ok]. cbv beta iota.
  destruct (resources_present b); [|reflexivity].
  cbn [pc_pool_id heartbeat_update].
  destruct (updatePoolTotals _ _) as [[] w3]. reflexivity.
Qed.

Lemma disconnect_run (e : env) (user : string) (b : payload num)
    (w : world num) (contributorId : string) :
  b_contributor_id b = Some contributorId -> contributorId <> "" ->
  disconnect e user b w =
  let w1 := called w (heartbeat_call contributorId user) in
  let refused :=
    {| status := 500; body := ErrorBody "Failed to disconnect" |} in
  if up w then
    match filter (owned_by contributorId user) (pool_contributors (db w)) with
    | [c] =>
        ({| status := 200; body := Success "Agent disconnected" |},
         with_db w1
           (set_pool_contributors (db w)
              (map (fun r => if owned_by contributorId user r
                             then disconnect_update e r else r)
                   (pool_contributors (db w)))))
    | _ => (refused, w1)
    end
  else (refused, w1).
Proof.
  intros Hid Hne. unfold disconnect.
  destruct (truthy_id _ _ Hid Hne) as [-> ->]. cbn [negb].
  cbv beta iota zeta. unfold bind. rewrite update_single_run. cbv zeta.
  fold (heartbeat_call contributorId user).
  destruct (up w); [|reflexivity].
  destruct (filter _ _) as [|c [|c' l]]; reflexivity.
Qed.

(** Without a usable [contributor_id] both answer 400 and do nothing. *)
Lemma heartbeat_invalid (e : env) (user : string) (b : payload num)
    (w : world num) :
  truthy_str (b_contributor_id b) = false ->
  heartbeat e user b w =
    ({| status := 400; body := ErrorBody "contributor_id is required" |}, w) /\
  disconnect e user b w =
    ({| status := 400; body := ErrorBody "contributor_id is required" |}, w).
Proof.
  intros Hf. unfold heartbeat, disconnect. now rewrite Hf.
Qed.

Lemma falsy_or_id (x : option string) :
  truthy_str x = false \/ exists s, x = Some s /\ s <> "".
Proof.
  destruct x as [s|]; [|now left]. simpl.
  destruct (String.eqb_spec s ""); [now left|].
  right. now exists s.
Qed.

(** ** Heartbeat *)

(** C3.  For a contributor row that exists and is owned by the caller, a
    heartbeat whose update reaches the store changes that row in place and
    no other: [last_seen] becomes the current time, [status] the value sent
    (["online"] when none is sent), and each of [cpu_cores], [ram_gb],
    [storage_gb] that is absent from the request keeps its stored value. *)
Theorem heartbeat_partial_update (e : env) (user : string) (b : payload num)
    (w : world num) (c : pool_contributor num) (contributorId : string) :
  b_contributor_id b = Some contributorId -> contributorId <> "" ->
  NoDup (map pc_id (pool_contributors (db w))) ->
  In c (pool_contributors (db w)) ->
  pc_id c = contributorId -> pc_user_id c = user ->
  hd false (faults w) = false ->
  b_status b <> Some "" ->
  exists before after c',
    pool_contributors (db w) = before ++ c :: after /\
    pool_contributors (db (snd (heartbeat e user b w))) =
      before ++ c' :: after /\
    pc_id c' = pc_id c /\ pc_pool_id c' = pc_pool_id c /\
    pc_user_id c' = pc_user_id c /\
    pc_last_seen c' = Some (now e) /\
    pc_status c' = match b_status b with Some s => s | None => "online" end /\
    (b_cpu_cores b = Undefined -> pc_cpu_cores c' = pc_cpu_cores c) /\
    (b_ram_gb b = Undefined -> pc_ram_gb c' = pc_ram_gb c) /\
    (b_storage_gb b = Undefined -> pc_storage_gb c' = pc_storage_gb c).
Proof.
  intros Hid Hne Hnd Hin Hcid Hcu Hup Hst.
  assert (Hown : owned_by contributorId user c = true)
    by now apply owned_by_true.
  assert (Hf : filter (owned_by contributorId user)
                      (pool_contributors (db w)) = [c]).
  { apply (filter_by_key pc_id); auto.
    intros r Hr. apply owned_by_true in Hr. destruct Hr as [-> _].
    now symmetry. }
  destruct (filter_single_split _ (heartbeat_update e b) _ _ Hf)
    as (before & after & Hl & Hmap & _ & _).
  exists before, after, (heartbeat_update e b c).
  split; [assumption|]. split.
  - rewrite (heartbeat_run e user b w contributorId Hid Hne). cbv zeta.
    unfold up. rewrite Hup, Hf. cbn [negb].
    destruct (resources_present b); cbn [snd];
      [rewrite updatePoolTotals_contributors|]; exact Hmap.
  - simpl. repeat split.
    + unfold str_or. destruct (b_status b) as [s|]; [|reflexivity].
      destruct (String.eqb_spec s ""); [subst; congruence | reflexivity].
    + now intros ->.
    + now intros ->.
    + now intros ->.
Qed.



(** ** Rows of other callers *)

(** C5, with the status the handlers answer.  A heartbeat or disconnect
    whose [contributor_id] names no row owned by the caller (no such id, or
    a row of another user) fails with status 500 (400 when the
    [contributor_id] is missing or empty), and leaves every table as it
    was. *)
Theorem foreign_contributor_rejected (e : env) (user : string)
    (b : payload num) (w : world num) :
  (forall c, In c (pool_contributors (db w)) ->
             owned_by (str_or (b_contributor_id b) "") user c = false) ->
  let code := if truthy_str (b_contributor_id b) then 500 else 400 in
  status (fst (heartbeat e user b w)) = code /\
  db (snd (heartbeat e user b w)) = db w /\
  status (fst (disconnect e user b w)) = code /\
  db (snd (disconnect e user b w)) = db w.
Proof.
  intros Hforeign code. subst code.
  destruct (falsy_or_id (b_contributor_id b)) as [Hf | (cid & Hid & Hne)].
  - destruct (heartbeat_invalid e user b w Hf) as [-> ->].
    rewrite Hf. auto.
  - rewrite (heartbeat_run e user b w cid Hid Hne),
            (disconnect_run e user b w cid Hid Hne). cbv zeta.
    destruct (truthy_id _ _ Hid Hne) as [-> Hcid]. rewrite Hcid in Hforeign.
    rewrite (filter_none _ _ Hforeign).
    destruct (up w); auto.
Qed.

(** ** Aggregation *)

Lemma or_zero_null (x : option num) : or_zero x = null_as_zero x.
Proof.
  destruct x as [n|]; [|reflexivity]. simpl.
  destruct (num_truthy n) eqn:Hn; [reflexivity|].
  symmetry. now apply num_truthy_spec.
Qed.

Lemma js_or_zero_sent (x : js num) : js_or_zero x = sent_or_zero x.
Proof.
  unfold js_or_zero. rewrite or_zero_null. now destruct x.
Qed.

(** The three components of the [reduce] are three independent sums. *)
Lemma fold_add_contributor (cs : list (pool_contributor num)) :
  forall acc : totals num,
    total_cpu_cores (fold_left add_contributor cs acc) =
      fold_left (fun a c => num_add a (null_as_zero (pc_cpu_cores c)))
                cs (total_cpu_cores acc) /\
    total_ram_gb (fold_left add_contributor cs acc) =
      fold_left (fun a c => num_add a (null_as_zero (pc_ram_gb c)))
                cs (total_ram_gb acc) /\
    total_storage_gb (fold_left add_contributor cs acc) =
      fold_left (fun a c => num_add a (null_as_zero (pc_storage_gb c)))
                cs (total_storage_gb acc).
Proof.
  induction cs as [|c cs IH]; intros acc; simpl; [auto|].
  destruct (IH (add_contributor acc c)) as (-> & -> & ->).
  simpl. now rewrite !or_zero_null.
Qed.

Lemma quiet_up (w : world num) : faults w = [] -> up w = true.
Proof. unfold up. now intros ->. Qed.

Lemma quiet_called (w : world num) (c : call) :
  faults w = [] -> faults (called w c) = [].
Proof. simpl. now intros ->. Qed.

(** With no store failure the aggregator rewrites the totals of its pool. *)
Lemma updatePoolTotals_quiet (poolId : string) (w : world num) :
  faults w = [] ->
  db (snd (updatePoolTotals poolId w)) = aggregate poolId (db w) /\
  faults (snd (updatePoolTotals poolId w)) = [].
Proof.
  intros Hq. rewrite updatePoolTotals_run. cbv zeta.
  rewrite (quiet_up w Hq), (quiet_up _ (quiet_called w _ Hq)).
  simpl. now rewrite Hq.
Qed.

(** After [aggregate], the pools with the aggregated id are consistent. *)
Lemma aggregate_consistent (poolId : string) (d : database num)
    (p : pool num) :
  In p (pools (aggregate poolId d)) -> p_id p = poolId ->
  totals_consistent (aggregate poolId d) p.
Proof.
  unfold aggregate at 1. simpl. intros Hin Hid.
  apply in_map_iff in Hin. destruct Hin as (p0 & Hp & _).
  destruct (String.eqb_spec (p_id p0) poolId) as [He | Hne].
  - subst p. unfold totals_consistent, online_sum. simpl.
    destruct (fold_add_contributor
                (online_of (p_id p0) (pool_contributors d)) zero_totals)
      as (Hc & Hr & Hs).
    rewrite <- He. unfold online_of in *. now rewrite Hc, Hr, Hs.
  - subst p. contradiction.
Qed.

(** The other pools keep their row, and stay consistent when their online
    contributors are the same as before. *)
Lemma aggregate_frame (poolId : string) (d0 d : database num)
    (p : pool num) :
  pools d = pools d0 ->
  (forall q, q <> poolId ->
             online_of q (pool_contributors d) =
             online_of q (pool_contributors d0)) ->
  In p (pools (aggregate poolId d)) -> p_id p <> poolId ->
  In p (pools d0) /\
  (totals_consistent d0 p -> totals_consistent (aggregate poolId d) p).
Proof.
  intros Hpools Hframe Hin Hid. simpl in Hin.
  apply in_map_iff in Hin. destruct Hin as (p0 & Hp & Hin0).
  destruct (String.eqb_spec (p_id p0) poolId) as [He | Hne].
  - subst p. simpl in Hid. contradiction.
  - subst p0. split; [now rewrite <- Hpools|].
    unfold totals_consistent, online_sum. simpl.
    fold (online_of (p_id p) (pool_contributors d)).
    fold (online_of (p_id p) (pool_contributors d0)).
    now rewrite (Hframe (p_id p) Hid).
Qed.

(** Changing rows of one pool, without moving them to another pool, leaves
    the online rows of every other pool untouched. *)
Lemma online_of_frame_map (m : pool_contributor num -> bool)
    (f : pool_contributor num -> pool_contributor num)
    (l : list (pool_contributor num)) (poolId q : string) :
  (forall r, In r l -> m r = true -> pc_pool_id r = poolId) ->
  (forall r, pc_pool_id (f r) = pc_pool_id r) ->
  q <> poolId ->
  online_of q (map (fun r => if m r then f r else r) l) = online_of q l.
Proof.
  intros Hm Hf Hq. unfold online_of.
  induction l as [|a l IH]; [reflexivity|]. simpl.
  rewrite IH by (intros r Hr; apply Hm; now right).
  destruct (m a) eqn:Hma; [|reflexivity].
  rewrite Hf. rewrite (Hm a (or_introl eq_refl) Hma).
  assert (Hne : (poolId =? q) = false)
    by (apply String.eqb_neq; congruence).
  now rewrite Hne.
Qed.

Lemma online_of_frame_app (l : list (pool_contributor num))
    (row : pool_contributor num) (q : string) :
  q <> pc_pool_id row -> online_of q (l ++ [row]) = online_of q l.
Proof.
  intros Hq. unfold online_of. rewrite filter_app. simpl.
  assert (Hne : (pc_pool_id row =? q) = false)
    by (apply String.eqb_neq; congruence).
  rewrite Hne. simpl. apply app_nil_r.
Qed.

(** ** Register *)

Lemma insert_contributor_run (row : pool_contributor num) (w : world num) :
  insert_contributor row w =
  let w1 := called w (From pool_contributors_table Insert []) in
  if up w
     && negb (existsb (fun c => pc_id c =? pc_id row)
                      (pool_contributors (db w)))
     && negb (existsb (fun c => (pc_pool_id c =? pc_pool_id row)
                                && (pc_user_id c =? pc_user_id row))
                      (pool_contributors (db w)))
     && existsb (fun p => p_id p =? pc_pool_id row) (pools (db w))
  then (ok row,
        with_db w1 (set_pool_contributors (db w)
                      (pool_contributors (db w) ++ [row])))
  else (failed, w1).
Proof.
  unfold insert_contributor, bind. rewrite store_call_run. simpl.
  destruct (up w && _ && _ && _); reflexivity.
Qed.

Lemma updatePoolTotals_quiet_world (poolId : string) (w : world num) :
  faults w = [] ->
  updatePoolTotals poolId w =
  (tt, quiet (aggregate poolId (db w))
             (trace (snd (updatePoolTotals poolId w)))).
Proof.
  intros Hq. destruct (updatePoolTotals_quiet poolId w Hq) as [Hd Hf].
  destruct (updatePoolTotals poolId w) as [[] [d f tr]].
  simpl in *. now subst.
Qed.

(** What [register] does when no store call fails. *)
Lemma register_run (e : env) (user : string) (b : payload num)
    (w : world num) (poolId : string) :
  b_pool_id b = Some poolId -> poolId <> "" -> faults w = [] ->
  exists tr,
    register e user b w =
    match filter (fun p => p_id p =? poolId) (pools (db w)) with
    | [pool] =>
        match filter (fun c => (pc_pool_id c =? poolId)
                               && (pc_user_id c =? user))
                     (pool_contributors (db w)) with
        | [existing] =>
            match filter (fun c => pc_id c =? pc_id existing)
                         (pool_contributors (db w)) with
            | [_] =>
                ({| status := 200;
                    body := Registered (pc_id existing) (p_name pool)
                              "Agent reconnected to pool" |},
                 quiet (aggregate poolId
                          (set_pool_contributors (db w)
                             (map (fun r => if pc_id r =? pc_id existing
                                            then register_update e b r
                                            else r)
                                  (pool_contributors (db w))))) tr)
            | _ =>
                ({| status := 500;
                    body := ErrorBody "Failed to update contributor" |},
                 quiet (db w) tr)
            end
        | _ =>
            if negb (existsb (fun c => pc_id c =? fresh_id e)
                             (pool_contributors (db w)))
               && negb (existsb (fun c => (pc_pool_id c =? poolId)
                                          && (pc_user_id c =? user))
                                (pool_contributors (db w)))
               && existsb (fun p => p_id p =? poolId) (pools (db w))
            then
              ({| status := 200;
                  body := Registered (fresh_id e) (p_name pool)
                            "Agent registered successfully" |},
               quiet (aggregate poolId
                        (set_pool_contributors (db w)
                           (pool_contributors (db w)
                            ++ [register_insert e user poolId b]))) tr)
            else
              ({| status := 500;
                  body := ErrorBody "Failed to register agent" |},
               quiet (db w) tr)
        end
    | _ =>
        ({| status := 404; body := ErrorBody "Pool not found" |},
         quiet (db w) tr)
    end.
Proof.
  intros Hid Hne Hq. unfold register.
  destruct (truthy_id _ _ Hid Hne) as [-> ->]. cbn [negb].
  cbv beta iota zeta. unfold bind.
  rewrite select_pool_single_run, (quiet_up w Hq).
  set (w1 := called w _).
  assert (Hq1 : faults w1 = []) by now apply quiet_called.
  destruct (filter (fun p => p_id p =? poolId) (pools (db w)))
    as [|pool [|pool' ps]]; cbn [single usable error data ok failed];
    try (exists (trace w1); unfold quiet; rewrite <- Hq1; reflexivity).
  rewrite select_existing_run, (quiet_up w1 Hq1).
  set (w2 := called w1 _).
  assert (Hq2 : faults w2 = []) by now apply quiet_called.
  change (db w1) with (db w).
  assert (Hinsert :
    exists tr,
      (let (a, w') :=
         insert_contributor (register_insert e user poolId b) w2 in
       (if error a
        then respond 500 (ErrorBody "Failed to register agent")
        else
          fun w3 : world num =>
            let (_, w'0) := updatePoolTotals poolId w3 in
            match data a with
            | Some contributor =>
                respond 200
                  (Registered (pc_id contributor) (p_name pool)
                     "Agent registered successfully")
            | None => internal_error
            end w'0) w') =
      if negb (existsb (fun c => pc_id c =? fresh_id e)
                       (pool_contributors (db w)))
         && negb (existsb (fun c => (pc_pool_id c =? poolId)
                                    && (pc_user_id c =? user))
                          (pool_contributors (db w)))
         && existsb (fun p => p_id p =? poolId) (pools (db w))
      then
        ({| status := 200;
            body := Registered (fresh_id e) (p_name pool)
                      "Agent registered successfully" |},
         quiet (aggregate poolId
                  (set_pool_contributors (db w)
                     (pool_contributors (db w)
                      ++ [register_insert e user poolId b]))) tr)
      else
        ({| status := 500; body := ErrorBody "Failed to register agent" |},
         quiet (db w) tr)).
  { rewrite insert_contributor_run, (quiet_up w2 Hq2). cbv zeta.
    cbn [andb pc_id pc_pool_id pc_user_id register_insert].
    change (db w2) with (db w).
    set (w3 := called w2 _).
    assert (Hq3 : faults w3 = []) by now apply quiet_called.
    destruct (negb _ && negb _ && _); cbn [error data ok failed].
    - set (w4 := with_db w3 _).
      rewrite (updatePoolTotals_quiet_world poolId w4 Hq3).
      eexists. reflexivity.
    - exists (trace w3). unfold quiet. rewrite <- Hq3. reflexivity. }
  destruct (filter (fun c => (pc_pool_id c =? poolId)
                             && (pc_user_id c =? user))
                   (pool_contributors (db w)))
    as [|existing [|x xs]]; cbn [single data ok failed]; try exact Hinsert.
  clear Hinsert.
  rewrite update_single_run, (quiet_up w2 Hq2). cbv zeta.
  change (db w2) with (db w).
  set (w3 := called w2 _).
  assert (Hq3 : faults w3 = []) by now apply quiet_called.
  destruct (filter (fun c => pc_id c =? pc_id existing)
                   (pool_contributors (db w)))
    as [|c [|c' cs]]; cbn [error data ok failed];
    try (exists (trace w3); unfold quiet; rewrite <- Hq3; reflexivity).
  set (w4 := with_db w3 _).
  rewrite (updatePoolTotals_quiet_world poolId w4 Hq3).
  eexists. reflexivity.
Qed.

Lemma filter_single_in {A : Type} (m : A -> bool) (l : list A) (c r : A) :
  filter m l = [c] -> In r l -> m r = true -> r = c.
Proof.
  intros Hf Hr Hm.
  assert (Hin : In r (filter m l)) by (apply filter_In; now split).
  rewrite Hf in Hin. destruct Hin as [-> | []]. reflexivity.
Qed.

Lemma filter_single_picked {A : Type} (m : A -> bool) (l : list A) (c : A) :
  filter m l = [c] -> In c l /\ m c = true.
Proof.
  intros Hf. apply filter_In. rewrite Hf. now left.
Qed.

(** C1, for the operations that recompute.  After a register answered
    with success, and after a heartbeat answered with success that carried
    at least one of [cpu_cores], [ram_gb], [storage_gb], in a run where no
    store call fails: the totals of the pool concerned equal the sums of the
    three columns over its contributors whose status is ["online"] (nulls
    counted as 0); every other pool keeps its row, and its totals still
    equal those sums if they did before. *)
Theorem totals_recomputed_after_resource_change (e : env) (user : string)
    (b : payload num) (w : world num) :
  faults w = [] ->
  (status (fst (register e user b w)) = 200 ->
   let d' := db (snd (register e user b w)) in
   let affected := str_or (b_pool_id b) "" in
   forall p, In p (pools d') ->
     (p_id p = affected -> totals_consistent d' p) /\
     (p_id p <> affected ->
      In p (pools (db w)) /\
      (totals_consistent (db w) p -> totals_consistent d' p))) /\
  (status (fst (heartbeat e user b w)) = 200 ->
   resources_present b = true ->
   let d' := db (snd (heartbeat e user b w)) in
   exists c,
     In c (pool_contributors d') /\
     owned_by (str_or (b_contributor_id b) "") user c = true /\
     forall p, In p (pools d') ->
       (p_id p = pc_pool_id c -> totals_consistent d' p) /\
       (p_id p <> pc_pool_id c ->
        In p (pools (db w)) /\
        (totals_consistent (db w) p -> totals_consistent d' p))).
Proof.
  intros Hq. split.
  - destruct (falsy_or_id (b_pool_id b)) as [Hf | (pid & Hid & Hne)].
    { unfold register. rewrite Hf. discriminate. }
    destruct (register_run e user b w pid Hid Hne Hq) as [tr ->].
    destruct (truthy_id _ _ Hid Hne) as [_ ->].
    destruct (filter (fun p => p_id p =? pid) (pools (db w)))
      as [|pool [|pool' ps]]; try discriminate.
    destruct (filter (fun c => (pc_pool_id c =? pid) && (pc_user_id c =? user))
                     (pool_contributors (db w)))
      as [|existing [|x xs]] eqn:Hkey.
    + destruct (negb _ && negb _ && _); [|discriminate].
      intros _ d' affected p Hp. subst d' affected. cbn [snd quiet db] in *.
      split; [now apply aggregate_consistent|].
      apply aggregate_frame; [reflexivity| |assumption].
      intros q Hq'. cbn [set_pool_contributors pool_contributors].
      now apply online_of_frame_app.
    + destruct (filter (fun c => pc_id c =? pc_id existing)
                       (pool_contributors (db w)))
        as [|c [|c' cs]] eqn:Hbyid; try discriminate.
      intros _ d' affected p Hp. subst d' affected. cbn [snd quiet db] in *.
      split; [now apply aggregate_consistent|].
      apply aggregate_frame; [reflexivity| |assumption].
      intros q Hq'. cbn [set_pool_contributors pool_contributors].
      apply online_of_frame_map with (poolId := pid); auto.
      intros r Hr Hm.
      destruct (filter_single_picked _ _ _ Hkey) as [Hex Hexkey].
      assert (Hc : existing = c).
      { apply (filter_single_in _ _ _ _ Hbyid Hex). apply String.eqb_refl. }
      rewrite (filter_single_in _ _ _ _ Hbyid Hr Hm), <- Hc.
      apply andb_true_iff in Hexkey. now apply String.eqb_eq.
    + destruct (negb _ && negb _ && _); [|discriminate].
      intros _ d' affected p Hp. subst d' affected. cbn [snd quiet db] in *.
      split; [now apply aggregate_consistent|].
      apply aggregate_frame; [reflexivity| |assumption].
      intros q Hq'. cbn [set_pool_contributors pool_contributors].
      now apply online_of_frame_app.
  - destruct (falsy_or_id (b_contributor_id b)) as [Hf | (cid & Hid & Hne)].
    { rewrite (proj1 (heartbeat_invalid e user b w Hf)). discriminate. }
    rewrite (heartbeat_run e user b w cid Hid Hne). cbv zeta.
    destruct (truthy_id _ _ Hid Hne) as [_ ->].
    rewrite (quiet_up w Hq).
    destruct (filter (owned_by cid user) (pool_contributors (db w)))
      as [|c0 [|c1 l]] eqn:Hfilter; try discriminate.
    intros _ Hres. rewrite Hres. cbn [snd].
    set (w2 := with_db _ _).
    assert (Hq2 : faults w2 = []) by (simpl; now rewrite Hq).
    destruct (updatePoolTotals_quiet (pc_pool_id c0) w2 Hq2) as [-> _].
    destruct (filter_single_split _ (heartbeat_update e b) _ _ Hfilter)
      as (l1 & l2 & Hl & Hmap & Hown & _).
    exists (heartbeat_update e b c0). split; [|split].
    + cbn. rewrite Hmap. apply in_or_app. right. now left.
    + exact Hown.
    + intros p Hp. cbn [pc_pool_id heartbeat_update].
      split; [now apply aggregate_consistent|].
      apply aggregate_frame; [reflexivity| |assumption].
      intros q Hq'. cbn.
      apply online_of_frame_map with (poolId := pc_pool_id c0); auto.
      intros r Hr Hm. now rewrite (filter_single_in _ _ _ _ Hfilter Hr Hm).
Qed.

(** ** Registering again *)

Lemma map_key_unchanged {A K : Type} (key : A -> K) (m : A -> bool)
    (f : A -> A) (l : list A) :
  (forall r, key (f r) = key r) ->
  map key (map (fun r => if m r then f r else r) l) = map key l.
Proof.
  intros Hk. rewrite map_map. apply map_ext.
  intros r. destruct (m r); auto.
Qed.

Lemma member_row_true (poolId user : string) (c : pool_contributor num) :
  member_row poolId user c = true <-> membership c = (poolId, user).
Proof.
  unfold member_row, membership.
  rewrite andb_true_iff, !String.eqb_eq. split.
  - now intros [-> ->].
  - intros Heq. now injection Heq.
Qed.

Lemma aggregate_contributors (poolId : string) (d : database num) :
  pool_contributors (aggregate poolId d) = pool_contributors d.
Proof. reflexivity. Qed.

Lemma aggregate_pool_ids (poolId : string) (d : database num) :
  map p_id (pools (aggregate poolId d)) = map p_id (pools d).
Proof.
  simpl. rewrite map_map. apply map_ext.
  intros p. now destruct (p_id p =? poolId).
Qed.

(** One successful register, from a store that satisfies the keys of its
    tables: the caller has exactly one row in the pool afterwards, holding
    what was sent; the other rows are those of before; the keys still
    hold. *)
Lemma register_step (e : env) (user : string) (b : payload num)
    (w : world num) (poolId : string) :
  b_pool_id b = Some poolId -> poolId <> "" -> faults w = [] ->
  NoDup (map p_id (pools (db w))) ->
  In poolId (map p_id (pools (db w))) ->
  NoDup (map pc_id (pool_contributors (db w))) ->
  NoDup (map membership (pool_contributors (db w))) ->
  (~ In (fresh_id e) (map pc_id (pool_contributors (db w))) \/
   exists r, In r (pool_contributors (db w)) /\
             member_row poolId user r = true) ->
  let w1 := snd (register e user b w) in
  let rows := pool_contributors (db w1) in
  status (fst (register e user b w)) = 200 /\
  faults w1 = [] /\
  map p_id (pools (db w1)) = map p_id (pools (db w)) /\
  NoDup (map pc_id rows) /\
  NoDup (map membership rows) /\
  db w1 = aggregate poolId (set_pool_contributors (db w) rows) /\
  (forall r, In r rows -> member_row poolId user r = false ->
             In r (pool_contributors (db w))) /\
  exists c,
    filter (member_row poolId user) rows = [c] /\
    pc_cpu_cores c = Some (sent_or_zero (b_cpu_cores b)) /\
    pc_ram_gb c = Some (sent_or_zero (b_ram_gb b)) /\
    pc_storage_gb c = Some (sent_or_zero (b_storage_gb b)) /\
    pc_status c = "online" /\
    pc_last_seen c = Some (now e).
Proof.
  intros Hid Hne Hq Hpk Hpool Hck Hcu Hfresh.
  destruct (register_run e user b w poolId Hid Hne Hq) as [tr Hrun].
  apply in_map_iff in Hpool. destruct Hpool as (pool & Hpid & Hpin).
  assert (Hone : filter (fun p => p_id p =? poolId) (pools (db w)) = [pool]).
  { apply (filter_by_key p_id); auto.
    - now apply String.eqb_eq.
    - intros r Hr. apply String.eqb_eq in Hr. congruence. }
  rewrite Hone in Hrun.
  change (fun c : pool_contributor num =>
            (pc_pool_id c =? poolId) && (pc_user_id c =? user))
    with (member_row (num:=num) poolId user) in Hrun.
  destruct (filter (member_row poolId user) (pool_contributors (db w)))
    as [|existing rest] eqn:Hkey.
  - (* a new contributor *)
    destruct Hfresh as [Hfresh | (r & Hr & Hm)];
      [|now rewrite (filter_nil_none _ _ Hkey r Hr) in Hm].
    assert (Hnoid : existsb (fun c => pc_id c =? fresh_id e)
                            (pool_contributors (db w)) = false).
    { apply not_true_is_false. intros Hex.
      apply existsb_exists in Hex. destruct Hex as (x & Hx & Heq).
      apply String.eqb_eq in Heq. apply Hfresh. rewrite <- Heq.
      now apply in_map. }
    assert (Hnokey : existsb (member_row poolId user)
                             (pool_contributors (db w)) = false).
    { apply not_true_is_false. intros Hex.
      apply existsb_exists in Hex. destruct Hex as (x & Hx & Hm).
      now rewrite (filter_nil_none _ _ Hkey x Hx) in Hm. }
    assert (Hhas : existsb (fun p => p_id p =? poolId) (pools (db w)) = true).
    { apply existsb_exists. exists pool. split; [assumption|].
      now apply String.eqb_eq. }
    rewrite Hnoid, Hnokey, Hhas in Hrun. cbn [negb andb] in Hrun.
    intros w1 rows. subst w1 rows. rewrite Hrun.
    cbn [fst snd quiet db faults]. rewrite !aggregate_contributors.
    cbn [set_pool_contributors pool_contributors].
    set (row := register_insert e user poolId b).
    assert (Hrow : member_row poolId user row = true).
    { unfold member_row. simpl. now rewrite !String.eqb_refl. }
    repeat split.
    + now rewrite aggregate_pool_ids.
    + rewrite map_app. apply NoDup_app; auto.
      * simpl. constructor; [intros []|constructor].
      * intros a Ha [<- | []]. now apply Hfresh.
    + rewrite map_app. apply NoDup_app; auto.
      * simpl. constructor; [intros []|constructor].
      * intros a Ha [Heq | []].
        apply in_map_iff in Ha. destruct Ha as (x & Hx & Hxin).
        assert (Hm : member_row poolId user x = true).
        { apply member_row_true. rewrite Hx, <- Heq. reflexivity. }
        now rewrite (filter_nil_none _ _ Hkey x Hxin) in Hm.
    + intros r Hr Hm. apply in_app_or in Hr.
      destruct Hr as [Hr | [<- | []]]; [assumption | congruence].
    + exists row. rewrite filter_app, Hkey. simpl. rewrite Hrow.
      simpl. rewrite !js_or_zero_sent. repeat split.
  - (* a contributor of before *)
    assert (Hpicked : In existing (filter (member_row poolId user)
                                          (pool_contributors (db w))))
      by (rewrite Hkey; now left).
    apply filter_In in Hpicked. destruct Hpicked as [Hex Hexm].
    assert (Hs : filter (member_row poolId user)
                        (pool_contributors (db w)) = [existing]).
    { apply (filter_by_key membership); auto.
      intros r Hr. apply member_row_true in Hr. rewrite Hr.
      symmetry. now apply member_row_true. }
    rewrite Hkey in Hs. injection Hs as ->. clear Hfresh.
    assert (Hbyid : filter (fun c => pc_id c =? pc_id existing)
                           (pool_contributors (db w)) = [existing]).
    { apply (filter_by_key pc_id); auto.
      - apply String.eqb_refl.
      - intros r Hr. now apply String.eqb_eq. }
    rewrite Hbyid in Hrun.
    intros w1 rows. subst w1 rows. rewrite Hrun.
    cbn [fst snd quiet db faults]. rewrite !aggregate_contributors.
    cbn [set_pool_contributors pool_contributors].
    set (m := fun r : pool_contributor num => pc_id r =? pc_id existing).
    set (change := fun r => if m r then register_update e b r else r).
    assert (Hchanged : In (register_update e b existing)
                          (map change (pool_contributors (db w)))).
    { apply in_map_iff. exists existing. split; [|assumption].
      unfold change, m. now rewrite String.eqb_refl. }
    assert (Hm' : member_row poolId user (register_update e b existing)
                  = true) by exact Hexm.
    repeat split.
    + now rewrite aggregate_pool_ids.
    + unfold change. now rewrite (map_key_unchanged pc_id).
    + unfold change. now rewrite (map_key_unchanged membership).
    + intros r Hr Hmr. apply in_map_iff in Hr.
      destruct Hr as (r0 & Hr0 & Hin0). unfold change in Hr0.
      destruct (pc_id r0 =? pc_id existing) eqn:Hm0; [|now subst].
      rewrite (filter_single_in _ _ _ _ Hbyid Hin0 Hm0) in Hr0.
      subst r. congruence.
    + exists (register_update e b existing). split.
      * apply (filter_by_key membership); auto.
        -- unfold change. now rewrite (map_key_unchanged membership).
        -- intros r Hr. apply member_row_true in Hr. rewrite Hr.
           symmetry. now apply member_row_true.
      * simpl. rewrite !js_or_zero_sent. repeat split.
Qed.

(** When the caller's row is online and no other row of the pool is, it
    is the only row the aggregator reads. *)
Lemma online_only (poolId user : string) (rows : list (pool_contributor num))
    (c : pool_contributor num) :
  filter (member_row poolId user) rows = [c] ->
  pc_status c = "online" ->
  (forall r, In r rows -> member_row poolId user r = false ->
             pc_pool_id r = poolId -> pc_status r <> "online") ->
  online_of poolId rows = [c].
Proof.
  intros Hf Hon Hothers.
  destruct (filter_single_split _ (fun r => r) _ _ Hf)
    as (l1 & l2 & Hrows & _ & Hc & Hrest).
  assert (Hoff : forall r, In r l1 \/ In r l2 ->
                 (pc_pool_id r =? poolId) && (pc_status r =? "online")
                 = false).
  { intros r Hr. apply andb_false_iff.
    destruct (String.eqb_spec (pc_pool_id r) poolId) as [Hp | Hp];
      [right | now left].
    apply String.eqb_neq. apply Hothers; auto.
    rewrite Hrows. apply in_or_app. destruct Hr; [now left|right; now right]. }
  subst rows. unfold online_of. rewrite filter_app. simpl.
  apply member_row_true in Hc. injection Hc as Hcp Hcu.
  rewrite Hcp, Hon, String.eqb_refl. simpl.
  rewrite !filter_none; auto.
Qed.

(** C2.  Two registers by one caller for one existing pool, each reaching
    the store without failure: both succeed, and afterwards the caller has
    exactly one contributor row in that pool; its [cpu_cores], [ram_gb] and
    [storage_gb] are what the second request sent, 0 for a field it left
    out, and its status is ["online"].  When no other user's row in the pool
    is online, the pool's totals are these same three values. *)
Theorem register_twice_overwrites (e1 e2 : env) (user : string)
    (b1 b2 : payload num) (w : world num) (poolId : string) :
  b_pool_id b1 = Some poolId -> b_pool_id b2 = Some poolId -> poolId <> "" ->
  faults w = [] ->
  NoDup (map p_id (pools (db w))) ->
  In poolId (map p_id (pools (db w))) ->
  NoDup (map pc_id (pool_contributors (db w))) ->
  NoDup (map membership (pool_contributors (db w))) ->
  ~ In (fresh_id e1) (map pc_id (pool_contributors (db w))) ->
  let w1 := snd (register e1 user b1 w) in
  let w2 := snd (register e2 user b2 w1) in
  status (fst (register e1 user b1 w)) = 200 /\
  status (fst (register e2 user b2 w1)) = 200 /\
  exists c,
    filter (member_row poolId user) (pool_contributors (db w2)) = [c] /\
    pc_cpu_cores c = Some (sent_or_zero (b_cpu_cores b2)) /\
    pc_ram_gb c = Some (sent_or_zero (b_ram_gb b2)) /\
    pc_storage_gb c = Some (sent_or_zero (b_storage_gb b2)) /\
    pc_status c = "online" /\
    ((forall r, In r (pool_contributors (db w)) ->
                pc_pool_id r = poolId -> pc_user_id r <> user ->
                pc_status r <> "online") ->
     exists p,
       filter (fun p => p_id p =? poolId) (pools (db w2)) = [p] /\
       p_total_cpu_cores p = Some (sent_or_zero (b_cpu_cores b2)) /\
       p_total_ram_gb p = Some (sent_or_zero (b_ram_gb b2)) /\
       p_total_storage_gb p = Some (sent_or_zero (b_storage_gb b2))).
Proof.
  intros Hid1 Hid2 Hne Hq Hpk Hpool Hck Hcu Hfresh w1 w2.
  destruct (register_step e1 user b1 w poolId Hid1 Hne Hq Hpk Hpool Hck Hcu
              (or_introl Hfresh))
    as (Hs1 & Hq1 & Hp1 & Hck1 & Hcu1 & _ & Hold1 & c1 & Hf1 & _).
  fold w1 in Hq1, Hp1, Hck1, Hcu1, Hold1, Hf1.
  destruct (filter_single_picked _ _ _ Hf1) as [Hin1 Hm1].
  assert (Hpk1 : NoDup (map p_id (pools (db w1)))) by now rewrite Hp1.
  assert (Hpool1 : In poolId (map p_id (pools (db w1)))) by now rewrite Hp1.
  destruct (register_step e2 user b2 w1 poolId Hid2 Hne Hq1 Hpk1 Hpool1
              Hck1 Hcu1 (or_intror (ex_intro _ c1 (conj Hin1 Hm1))))
    as (Hs2 & _ & Hp2 & _ & _ & Hdb2 & Hold2 & c2 & Hf2 & Hcpu & Hram
        & Hsto & Hon & _).
  fold w2 in Hp2, Hdb2, Hold2, Hf2.
  split; [assumption|]. split; [assumption|].
  exists c2. repeat (split; [assumption|]).
  intros Hothers.
  assert (Honline : online_of poolId (pool_contributors (db w2)) = [c2]).
  { apply (online_only poolId user); auto.
    intros r Hr Hm Hrp. apply Hothers; auto.
    intros Hu.
    assert (Hmine : member_row poolId user r = true).
    { apply member_row_true. unfold membership. now rewrite Hrp, Hu. }
    congruence. }
  assert (Hpool2 : In poolId (map p_id (pools (db w2))))
    by now rewrite Hp2.
  apply in_map_iff in Hpool2. destruct Hpool2 as (p & Hpid & Hpin).
  exists p. split.
  - apply (filter_by_key p_id); auto.
    + now rewrite Hp2.
    + now apply String.eqb_eq.
    + intros r Hr. apply String.eqb_eq in Hr. congruence.
  - rewrite Hdb2 in Hpin.
    destruct (aggregate_consistent poolId _ p Hpin Hpid) as (Tc & Tr & Ts).
    rewrite Tc, Tr, Ts. unfold online_sum.
    rewrite aggregate_contributors.
    cbn [set_pool_contributors pool_contributors].
    fold (online_of (p_id p) (pool_contributors (db w2))).
    rewrite Hpid, Honline. simpl.
    rewrite Hcpu, Hram, Hsto. simpl.
    now rewrite !num_add_zero_l.
Qed.

End AgentApi.

(** * More on [users_share_pool] and the profile policy *)

Section VisibilityConverse.

Context {num : Type} `{JsNumber num}.

Lemma holds_and (a b : option bool) :
  holds (sql_and a b) = true -> a = Some true /\ b = Some true.
Proof. destruct a as [[|]|], b as [[|]|]; simpl; intros; auto; discriminate. Qed.

Lemma sql_or_true (a b : option bool) :
  sql_or a b = Some true -> a = Some true \/ b = Some true.
Proof. destruct a as [[|]|], b as [[|]|]; simpl; intros; auto; discriminate. Qed.

Lemma sql_eq_true (x y : string) : sql_eq (Some x) (Some y) = Some true -> x = y.
Proof. simpl. intros E. injection E as E. now apply String.eqb_eq. Qed.

Lemma existsb_none {A : Type} (f : A -> bool) (l : list A) :
  (forall x, In x l -> f x = false) -> existsb f l = false.
Proof.
  intros Hf. apply not_true_is_false. intros E.
  apply existsb_exists in E. destruct E as (x & Hx & Hfx).
  rewrite (Hf x Hx) in Hfx. discriminate.
Qed.

Lemma left_join_rows (d : database num) (p : pool num)
    (x : option (pool_contributor num)) :
  In x (left_join_contributors d p) ->
  match x with
  | None => True
  | Some c => In c (pool_contributors d) /\ pc_pool_id c = p_id p
  end.
Proof.
  unfold left_join_contributors.
  destruct (filter _ _) as [|c0 cs] eqn:Hf.
  - intros [<- | []]. exact I.
  - intros Hin. apply in_map_iff in Hin. destruct Hin as (c & <- & Hc).
    rewrite <- Hf in Hc. apply filter_In in Hc. destruct Hc as [Hc Hp].
    split; [assumption|]. now apply String.eqb_eq.
Qed.

Lemma target_in_pool_sound (d : database num) (p : pool num) (t : string) :
  target_in_pool d p (Some t) = Some true -> pool_member d p t.
Proof.
  unfold target_in_pool. intros E. apply sql_or_true in E.
  destruct E as [E | E].
  - left. now apply sql_eq_true.
  - injection E as E. apply existsb_exists in E.
    destruct E as (c & Hc & Hm).
    right. exists c. split; [assumption|]. revert Hm. simpl.
    destruct (String.eqb_spec (pc_pool_id c) (p_id p));
      destruct (String.eqb_spec (pc_user_id c) t);
      simpl; intros; try discriminate; auto.
Qed.

Lemma viewer_in_pool_sound (d : database num) (p : pool num)
    (x : option (pool_contributor num)) (v : string) :
  In x (left_join_contributors d p) ->
  sql_or (sql_eq (Some (p_owner_id p)) (Some v))
         (sql_eq (option_map pc_user_id x) (Some v)) = Some true ->
  pool_member d p v.
Proof.
  intros Hx E. apply left_join_rows in Hx. apply sql_or_true in E.
  destruct E as [E | E].
  - left. now apply sql_eq_true.
  - destruct x as [c|]; [|discriminate]. destruct Hx as [Hc Hp].
    right. exists c. repeat split; auto. now apply sql_eq_true.
Qed.

(** The function is true for exactly two reasons: the two users are both
    owner of or contributor to one pool, or the viewer owns a server with an
    assignment to a pool that the target owns or contributes to. *)
Theorem users_share_pool_iff (d : database num) (viewer target : string) :
  users_share_pool d (Some viewer) (Some target) = true <->
  (exists p, In p (pools d) /\ pool_member d p viewer
             /\ pool_member d p target) \/
  (exists s spa p,
      In s (servers d) /\ s_owner_id s = viewer /\
      In spa (server_pool_assignments d) /\ spa_server_id spa = s_id s /\
      In p (pools d) /\ p_id p = spa_pool_id spa /\
      pool_member d p target).
Proof.
  unfold users_share_pool. rewrite orb_true_iff. split.
  - intros [E | E].
    + left. unfold same_pool in E. apply existsb_exists in E.
      destruct E as (p & Hp & E). apply existsb_exists in E.
      destruct E as (x & Hx & E). apply holds_and in E.
      destruct E as [Hv Ht]. exists p. repeat split; auto.
      * now apply (viewer_in_pool_sound d p x).
      * now apply target_in_pool_sound.
    + right. unfold shared_server in E. apply existsb_exists in E.
      destruct E as (s & Hs & E). apply existsb_exists in E.
      destruct E as (spa & Hspa & E). apply filter_In in Hspa.
      destruct Hspa as [Hspa Hsid]. apply existsb_exists in E.
      destruct E as (p & Hp & E). apply filter_In in Hp.
      destruct Hp as [Hp Hpid]. apply existsb_exists in E.
      destruct E as (x & Hx & E). apply holds_and in E.
      destruct E as [Hv Ht].
      exists s, spa, p. repeat split; auto.
      * now apply sql_eq_true.
      * now apply String.eqb_eq.
      * now apply String.eqb_eq.
      * now apply (viewer_in_pool_sound d p x).
  - intros [(p & Hp & Hv & Ht) | (s & spa & p & Hs & Hv & Hspa & Hsid & Hp
                                  & Hpid & Ht)].
    + left. now apply (same_pool_members d p).
    + right. subst viewer. now apply (shared_server_members d s spa p).
Qed.

(** A NULL argument, as [auth.uid()] is without a session, makes the
    function false whatever the tables hold. *)
Theorem users_share_pool_null (d : database num) (x : option string) :
  users_share_pool d None x = false /\ users_share_pool d x None = false.
Proof.
  unfold users_share_pool, same_pool, shared_server. split.
  - apply orb_false_iff. split.
    + apply existsb_none. intros p _. apply existsb_none. intros pc _.
      destruct pc; simpl; now destruct (target_in_pool d p x) as [[|]|].
    + apply existsb_none. intros s _. apply existsb_none. intros spa _.
      apply existsb_none. intros p _. apply existsb_none. intros pc _.
      simpl. now destruct (sql_or _ _) as [[|]|].
  - assert (Ht : forall p, target_in_pool d p None = None).
    { intros p. unfold target_in_pool.
      rewrite existsb_none; [now destruct x|].
      intros c _. now destruct (pc_pool_id c =? p_id p). }
    apply orb_false_iff. split.
    + apply existsb_none. intros p _. apply existsb_none. intros pc _.
      rewrite Ht. now destruct (sql_or _ _) as [[|]|].
    + apply existsb_none. intros s _. apply existsb_none. intros spa _.
      apply existsb_none. intros p _. apply existsb_none. intros pc _.
      assert (Hn : sql_or (sql_eq (Some (p_owner_id p)) None)
                          (sql_eq (option_map pc_user_id pc) None) = None)
        by now destruct pc.
      rewrite Hn. now destruct (sql_eq _ x) as [[|]|].
Qed.

(** The profile policy: a signed-in user always reads their own profile,
    even with no pool and no server; another user's profile exactly when
    [users_share_pool] says so; and without a session no profile at all. *)
Theorem profile_policy (d : database num) (u t : string) :
  users_can_view_related_profiles d (Some u) u = true /\
  (u <> t ->
   users_can_view_related_profiles d (Some u) t =
   users_share_pool d (Some u) (Some t)) /\
  users_can_view_related_profiles d None t = false.
Proof.
  unfold users_can_view_related_profiles. repeat split.
  - now rewrite sql_eq_same.
  - intros Hne. apply String.eqb_neq in Hne. simpl. rewrite Hne.
    now destruct (users_share_pool d (Some u) (Some t)).
  - rewrite (proj1 (users_share_pool_null d (Some t))). reflexivity.
Qed.

End VisibilityConverse.

(** * What a request may do to the tables *)

Section ApiSteps.

Context {num : Type} `{JsNumber num}.

Lemma api_step_refl (u : string) (d : database num) : api_step u d d.
Proof.
  unfold api_step. repeat split; auto.
  exists []. now rewrite app_nil_r.
Qed.

Lemma api_step_trans (u : string) (d1 d2 d3 : database num) :
  api_step u d1 d2 -> api_step u d2 d3 -> api_step u d1 d3.
Proof.
  intros (Hs & Ha & Hp & (x & Hx) & Ho & Hk & Hm)
         (Hs' & Ha' & Hp' & (y & Hy) & Ho' & Hk' & Hm').
  unfold api_step. repeat split; try congruence; auto.
  - exists (x ++ y). now rewrite Hy, Hx, app_assoc.
  - intros v Hv. now rewrite (Ho' v Hv), (Ho v Hv).
Qed.

(** ** Reads *)

Lemma reads_only_ret {A : Type} (a : A) : reads_only (num:=num) (ret a).
Proof. intros w. reflexivity. Qed.

Lemma reads_only_bind {A B : Type} (m : M num A) (k : A -> M num B) :
  reads_only m -> (forall a, reads_only (k a)) -> reads_only (bind m k).
Proof.
  intros Hm Hk w. unfold bind.
  specialize (Hm w). destruct (m w) as [a w1]. simpl in Hm.
  now rewrite (Hk a w1).
Qed.

Lemma reads_only_get_db : reads_only (num:=num) get_db.
Proof. intros w. reflexivity. Qed.

Lemma reads_only_store_call (t : table) (v : verb)
    (eqs : list (string * string)) :
  reads_only (num:=num) (store_call t v eqs).
Proof. intros w. now rewrite store_call_run. Qed.

Ltac reads_step :=
  first
    [ apply reads_only_ret
    | apply reads_only_get_db
    | apply reads_only_store_call
    | apply reads_only_bind; [|intros ?]
    | match goal with
      | |- reads_only (if ?b then _ else _) => destruct b
      | |- reads_only (match ?x with _ => _ end) => destruct x
      end ].

Lemma reads_only_select_pool_single (col : string)
    (key : pool num -> string) (v : string) :
  reads_only (select_pool_single col key v).
Proof. unfold select_pool_single. repeat reads_step. Qed.

Lemma reads_only_select_existing (poolId userId : string) :
  reads_only (num:=num) (select_existing poolId userId).
Proof. unfold select_existing. repeat reads_step. Qed.

Lemma reads_only_list_pools (user : string) :
  reads_only (num:=num) (list_pools user).
Proof. unfold list_pools, respond. repeat reads_step. Qed.

Lemma reads_only_get_pool (path : string) :
  reads_only (num:=num) (get_pool path).
Proof.
  unfold get_pool, respond.
  repeat first [apply reads_only_select_pool_single | reads_step].
Qed.

Lemma reads_only_lookup_invite (path : string) :
  reads_only (num:=num) (lookup_invite path).
Proof.
  unfold lookup_invite, respond.
  repeat first [apply reads_only_select_pool_single | reads_step].
Qed.

(** ** Writes *)

Lemma keeps_reads (u : string) {A : Type} (m : M num A) :
  reads_only m -> keeps u m.
Proof. intros Hm w. rewrite (Hm w). apply api_step_refl. Qed.

Lemma keeps_bind (u : string) {A B : Type} (m : M num A)
    (k : A -> M num B) :
  keeps u m -> (forall a, keeps u (k a)) -> keeps u (bind m k).
Proof.
  intros Hm Hk w. unfold bind.
  specialize (Hm w). destruct (m w) as [a w1]. simpl in Hm.
  apply (api_step_trans u _ (db w1)); [assumption | apply Hk].
Qed.

(** One step of [m] from [w], then anything that keeps. *)
Lemma step_bind (u : string) {A B : Type} (m : M num A)
    (k : A -> M num B) (w : world num) :
  api_step u (db w) (db (snd (m w))) -> (forall a, keeps u (k a)) ->
  api_step u (db w) (db (snd (bind m k w))).
Proof.
  intros Hm Hk. unfold bind. destruct (m w) as [a w1]. simpl in Hm.
  apply (api_step_trans u _ (db w1)); [assumption | apply Hk].
Qed.

Lemma keeps_updatePoolTotals (u poolId : string) :
  keeps u (num:=num) (updatePoolTotals poolId).
Proof.
  intros w. rewrite updatePoolTotals_run. cbv zeta.
  destruct (up w); [destruct (up (called w _))|];
    try apply api_step_refl.
  cbn [snd with_db db called]. unfold api_step. simpl.
  repeat split; auto.
  - rewrite map_map. apply map_ext. intros p.
    now destruct (p_id p =? poolId).
  - exists []. now rewrite app_nil_r.
Qed.

Lemma filter_map_others (u v : string) (m : pool_contributor num -> bool)
    (f : pool_contributor num -> pool_contributor num)
    (l : list (pool_contributor num)) :
  (forall r, In r l -> m r = true -> pc_user_id r = u) ->
  (forall r, pc_user_id (f r) = pc_user_id r) ->
  v <> u ->
  filter (fun c => pc_user_id c =? v)
         (map (fun r => if m r then f r else r) l) =
  filter (fun c => pc_user_id c =? v) l.
Proof.
  intros Hm Hf Hv.
  induction l as [|a l IH]; [reflexivity|]. simpl.
  rewrite IH by (intros r Hr; apply Hm; now right).
  destruct (m a) eqn:Hma; [|reflexivity].
  rewrite Hf, (Hm a (or_introl eq_refl) Hma).
  assert (Hne : (u =? v) = false) by (apply String.eqb_neq; congruence).
  now rewrite Hne.
Qed.

(** Changing in place the one row a filter picks, a row of [u]. *)
Lemma api_step_map (u : string) (d : database num)
    (m : pool_contributor num -> bool)
    (f : pool_contributor num -> pool_contributor num)
    (c : pool_contributor num) :
  filter m (pool_contributors d) = [c] -> pc_user_id c = u ->
  (forall r, row_identity (f r) = row_identity r) ->
  api_step u d
    (set_pool_contributors d
       (map (fun r => if m r then f r else r) (pool_contributors d))).
Proof.
  intros Hf Hu Hid.
  assert (Hid' : forall r, pc_id (f r) = pc_id r /\
                           pc_pool_id (f r) = pc_pool_id r /\
                           pc_user_id (f r) = pc_user_id r).
  { intros r. specialize (Hid r). unfold row_identity in Hid.
    injection Hid as -> -> ->. auto. }
  unfold api_step. simpl. repeat split; auto.
  - exists []. rewrite app_nil_r. now apply map_key_unchanged.
  - intros v Hv. apply (filter_map_others u); auto.
    + intros r Hr Hm. now rewrite (filter_single_in _ _ _ _ Hf Hr Hm).
    + intros r. apply Hid'.
  - rewrite (map_key_unchanged pc_id); auto. intros r. apply Hid'.
  - rewrite (map_key_unchanged membership); auto.
    intros r. unfold membership.
    destruct (Hid' r) as (_ & -> & ->). reflexivity.
Qed.

(** Adding a row of [u] that passes the constraints. *)
Lemma api_step_app (u : string) (d : database num)
    (row : pool_contributor num) :
  pc_user_id row = u ->
  existsb (fun c => pc_id c =? pc_id row) (pool_contributors d) = false ->
  existsb (fun c => (pc_pool_id c =? pc_pool_id row)
                    && (pc_user_id c =? pc_user_id row))
          (pool_contributors d) = false ->
  api_step u d (set_pool_contributors d (pool_contributors d ++ [row])).
Proof.
  intros Hu Hnoid Hnokey. unfold api_step. simpl. repeat split; auto.
  - exists [row_identity row]. now rewrite map_app.
  - intros v Hv. rewrite filter_app. simpl. rewrite Hu.
    assert (Hne : (u =? v) = false) by (apply String.eqb_neq; congruence).
    rewrite Hne. apply app_nil_r.
  - intros Hnd. rewrite map_app. apply NoDup_app; auto.
    + simpl. constructor; [intros []|constructor].
    + intros a Ha [<- | []]. apply in_map_iff in Ha.
      destruct Ha as (x & Hx & Hin).
      assert (E : existsb (fun c => pc_id c =? pc_id row)
                          (pool_contributors d) = true).
      { apply existsb_exists. exists x. split; [assumption|].
        now apply String.eqb_eq. }
      congruence.
  - intros Hnd. rewrite map_app. apply NoDup_app; auto.
    + simpl. constructor; [intros []|constructor].
    + intros a Ha [<- | []]. apply in_map_iff in Ha.
      destruct Ha as (x & Hx & Hin). unfold membership in Hx.
      injection Hx as Hp Hxu.
      assert (E : existsb (fun c => (pc_pool_id c =? pc_pool_id row)
                                    && (pc_user_id c =? pc_user_id row))
                          (pool_contributors d) = true).
      { apply existsb_exists. exists x. split; [assumption|].
        rewrite Hp, Hxu, !String.eqb_refl. reflexivity. }
      congruence.
Qed.

Lemma update_single_step (u : string) (eqs : list (string * string))
    (m : pool_contributor num -> bool)
    (f : pool_contributor num -> pool_contributor num) (w : world num) :
  (forall c, filter m (pool_contributors (db w)) = [c] -> pc_user_id c = u) ->
  (forall r, row_identity (f r) = row_identity r) ->
  api_step u (db w) (db (snd (update_single eqs m f w))).
Proof.
  intros Hu Hid. rewrite update_single_run. cbv zeta.
  destruct (up w); [|apply api_step_refl].
  destruct (filter m (pool_contributors (db w))) as [|c [|c' l]] eqn:Hf;
    try apply api_step_refl.
  cbn [snd with_db db]. apply (api_step_map u (db w) m f c); auto.
Qed.

Lemma insert_step (u : string) (row : pool_contributor num)
    (w : world num) :
  pc_user_id row = u ->
  api_step u (db w) (db (snd (insert_contributor row w))).
Proof.
  intros Hu. rewrite insert_contributor_run. cbv zeta.
  destruct (up w); [|apply api_step_refl]. cbn [andb].
  destruct (existsb (fun c => pc_id c =? pc_id row) _) eqn:Hnoid;
    [apply api_step_refl|].
  destruct (existsb (fun c => (pc_pool_id c =? pc_pool_id row)
                              && (pc_user_id c =? pc_user_id row)) _)
    eqn:Hnokey; [apply api_step_refl|].
  cbn [negb andb].
  destruct (existsb _ (pools (db w))); [|apply api_step_refl].
  cbn [snd with_db db]. now apply api_step_app.
Qed.

Ltac keeps_step u :=
  first
    [ apply keeps_updatePoolTotals
    | apply keeps_reads; solve [ repeat reads_step ]
    | apply keeps_bind; [|intros ?]
    | match goal with
      | |- keeps _ (if ?b then _ else _) => destruct b
      | |- keeps _ (match ?x with _ => _ end) => destruct x
      end ].

Lemma keeps_heartbeat (e : env) (u : string) (b : payload num) :
  keeps u (heartbeat e u b).
Proof.
  unfold heartbeat, internal_error, respond.
  destruct (negb (truthy_str (b_contributor_id b)));
    [apply keeps_reads, reads_only_ret|].
  cbv zeta. intros w. apply step_bind.
  - apply update_single_step; [|reflexivity].
    intros c Hc. apply filter_single_picked in Hc.
    destruct Hc as [_ Hc]. now apply owned_by_true in Hc.
  - intros a. repeat keeps_step u.
Qed.

Lemma keeps_disconnect (e : env) (u : string) (b : payload num) :
  keeps u (disconnect e u b).
Proof.
  unfold disconnect, respond.
  destruct (negb (truthy_str (b_contributor_id b)));
    [apply keeps_reads, reads_only_ret|].
  cbv zeta. intros w. apply step_bind.
  - apply update_single_step; [|reflexivity].
    intros c Hc. apply filter_single_picked in Hc.
    destruct Hc as [_ Hc]. now apply owned_by_true in Hc.
  - intros a. repeat keeps_step u.
Qed.

Lemma keeps_register (e : env) (u : string) (b : payload num) :
  keeps u (register e u b).
Proof.
  unfold register, internal_error, respond.
  destruct (negb (truthy_str (b_pool_id b)));
    [apply keeps_reads, reads_only_ret|].
  cbv zeta. intros w.
  unfold bind at 1. rewrite select_pool_single_run.
  set (w1 := called w _).
  destruct (usable _) as [pool|]; [|apply api_step_refl].
  unfold bind at 1. rewrite select_existing_run.
  set (w2 := called w1 _).
  change (db w) with (db w2).
  destruct (up w1).
  - destruct (filter _ (pool_contributors (db w1)))
      as [|existing [|x xs]] eqn:Hkey; cbn [single data ok failed].
    + apply step_bind; [now apply insert_step|].
      intros a. repeat keeps_step u.
    + apply step_bind.
      * apply update_single_step; [|reflexivity].
        intros c Hc.
        apply filter_single_picked in Hkey. destruct Hkey as [Hin Hm].
        rewrite <- (filter_single_in _ _ _ existing Hc Hin
                      (String.eqb_refl _)).
        apply andb_true_iff in Hm. destruct Hm as [_ Hm].
        now apply String.eqb_eq.
      * intros a. repeat keeps_step u.
    + apply step_bind; [now apply insert_step|].
      intros a. repeat keeps_step u.
  - cbn [data failed]. apply step_bind; [now apply insert_step|].
    intros a. repeat keeps_step u.
Qed.

Lemma keeps_dispatch (e : env) (req : request num) (path u : string) :
  keeps u (dispatch e req path u).
Proof.
  unfold dispatch, with_json, internal_error, respond.
  repeat first [ apply keeps_register
               | apply keeps_heartbeat
               | apply keeps_disconnect
               | apply keeps_reads, reads_only_list_pools
               | apply keeps_reads, reads_only_get_pool
               | apply keeps_reads, reads_only_lookup_invite
               | keeps_step u ].
Qed.

(** How [serve] goes, by the caller of the request. *)
Lemma serve_by_caller (e : env) (req : request num) (w : world num) :
  match caller e req with
  | Some u =>
      exists token,
        serve e req w = dispatch e req (route req) u (checked w token)
  | None => db (snd (serve e req w)) = db w /\
            (method req <> "OPTIONS" -> status (fst (serve e req w)) = 401)
  end.
Proof.
  unfold caller, serve, route.
  destruct (method req =? "OPTIONS") eqn:Hm; [split; [reflexivity|]|].
  { intros Hne. apply String.eqb_neq in Hne. congruence. }
  destruct (truthy_str (authorization req)); cbn [negb];
    [|split; reflexivity].
  unfold bind, auth_getUser, bind, log, ret. cbn.
  destruct (getUser e _) as [u|].
  - eexists. reflexivity.
  - split; reflexivity.
Qed.

End ApiSteps.

(** * Guarantees of the request handler *)

Section ApiGuarantees.

Context {num : Type} `{JsNumber num}.

Lemma serve_step (e : env) (req : request num) (w : world num) (u : string) :
  caller e req = Some u \/ caller e req = None ->
  api_step u (db w) (db (snd (serve e req w))).
Proof.
  intros Hc. pose proof (serve_by_caller e req w) as Hs.
  destruct Hc as [Hc | Hc]; rewrite Hc in Hs.
  - destruct Hs as [token ->].
    apply (keeps_dispatch e req (route req) u (checked w token)).
  - destruct Hs as [-> _]. apply api_step_refl.
Qed.

Lemma some_caller (e : env) (req : request num) :
  exists u, caller e req = Some u \/ caller e req = None.
Proof.
  destruct (caller e req) as [u|]; [exists u | exists ""]; auto.
Qed.

(** Whatever the request and whatever fails on the way, the handler leaves
    the servers and their assignments alone, adds or removes no pool,
    changes no pool's id, owner, name or invite code, and removes no
    contributor row: the rows of before are still there, in place, with
    their id, pool and user. *)
Theorem serve_never_removes (e : env) (req : request num) (w : world num) :
  servers (db (snd (serve e req w))) = servers (db w) /\
  server_pool_assignments (db (snd (serve e req w))) =
    server_pool_assignments (db w) /\
  map pool_identity (pools (db (snd (serve e req w)))) =
    map pool_identity (pools (db w)) /\
  exists added,
    map row_identity (pool_contributors (db (snd (serve e req w)))) =
    map row_identity (pool_contributors (db w)) ++ added.
Proof.
  destruct (some_caller e req) as [u Hu].
  destruct (serve_step e req w u Hu) as (Hs & Ha & Hp & Hr & _).
  auto.
Qed.

(** A request changes no contributor row of a user other than the one its
    token resolves to. *)
Theorem serve_other_users_rows (e : env) (req : request num)
    (w : world num) (v : string) :
  caller e req <> Some v ->
  filter (fun c => pc_user_id c =? v)
         (pool_contributors (db (snd (serve e req w)))) =
  filter (fun c => pc_user_id c =? v) (pool_contributors (db w)).
Proof.
  intros Hv. destruct (caller e req) as [u|] eqn:Hc.
  - destruct (serve_step e req w u) as (_ & _ & _ & _ & Ho & _).
    { left. exact Hc. }
    apply Ho. congruence.
  - destruct (serve_step e req w (String "x" v)) as (_ & _ & _ & _ & Ho & _).
    { right. exact Hc. }
    apply Ho. intros E. apply (f_equal String.length) in E. simpl in E. lia.
Qed.

Lemma pool_ids_of_identity (ps ps' : list (pool num)) :
  map pool_identity ps' = map pool_identity ps -> map p_id ps' = map p_id ps.
Proof.
  intros E.
  assert (Hid : forall l : list (pool num),
             map p_id l = map (fun x => fst (fst (fst x)))
                              (map pool_identity l)).
  { intros l. rewrite map_map. reflexivity. }
  now rewrite (Hid ps'), (Hid ps), E.
Qed.

(** The keys of the two tables (the primary keys, and
    [UNIQUE(pool_id, user_id)]) hold after a request if they held
    before. *)
Theorem serve_keeps_keys (e : env) (req : request num) (w : world num) :
  NoDup (map p_id (pools (db w))) ->
  NoDup (map pc_id (pool_contributors (db w))) ->
  NoDup (map membership (pool_contributors (db w))) ->
  NoDup (map p_id (pools (db (snd (serve e req w))))) /\
  NoDup (map pc_id (pool_contributors (db (snd (serve e req w))))) /\
  NoDup (map membership (pool_contributors (db (snd (serve e req w))))).
Proof.
  intros Hp Hc Hm. destruct (some_caller e req) as [u Hu].
  destruct (serve_step e req w u Hu) as (_ & _ & Hpi & _ & _ & Hk & Hk').
  repeat split; auto.
  now rewrite (pool_ids_of_identity _ _ Hpi).
Qed.

(** ** Failures leave the store as it was *)

Lemma heartbeat_failure (e : env) (u : string) (b : payload num)
    (w : world num) :
  status (fst (heartbeat e u b w)) <> 200 ->
  db (snd (heartbeat e u b w)) = db w.
Proof.
  destruct (falsy_or_id (b_contributor_id b)) as [Hf | (cid & Hid & Hne)].
  { now rewrite (proj1 (heartbeat_invalid e u b w Hf)). }
  rewrite (heartbeat_run e u b w cid Hid Hne). cbv zeta.
  destruct (up w); [|reflexivity].
  destruct (filter _ _) as [|c [|c' l]]; try reflexivity.
  destruct (resources_present b); intros Hs; exfalso; now apply Hs.
Qed.

Lemma disconnect_failure (e : env) (u : string) (b : payload num)
    (w : world num) :
  status (fst (disconnect e u b w)) <> 200 ->
  db (snd (disconnect e u b w)) = db w.
Proof.
  destruct (falsy_or_id (b_contributor_id b)) as [Hf | (cid & Hid & Hne)].
  { now rewrite (proj2 (heartbeat_invalid e u b w Hf)). }
  rewrite (disconnect_run e u b w cid Hid Hne). cbv zeta.
  destruct (up w); [|reflexivity].
  destruct (filter _ _) as [|c [|c' l]]; try reflexivity.
  intros Hs; exfalso; now apply Hs.
Qed.

Lemma register_failure (e : env) (u : string) (b : payload num)
    (w : world num) :
  status (fst (register e u b w)) <> 200 ->
  db (snd (register e u b w)) = db w.
Proof.
  assert (G : forall X, X = register e u b w ->
                        status (fst X) <> 200 -> db (snd X) = db w);
    [|now apply G].
  intros X. unfold register, internal_error, respond.
  destruct (negb (truthy_str (b_pool_id b))); [now intros ->|].
  cbv zeta. unfold bind at 1. rewrite select_pool_single_run.
  destruct (usable _) as [pool|]; [|now intros ->].
  unfold bind at 1. rewrite select_existing_run.
  set (w2 := called (called w _) _).
  destruct (data _) as [existing|].
  - unfold bind at 1. rewrite update_single_run. cbv zeta.
    destruct (up w2); [|now intros ->].
    destruct (filter _ (pool_contributors (db w2))) as [|c [|c' l]];
      try (now intros ->).
    cbn [error ok]. unfold bind.
    destruct (updatePoolTotals _ _) as [[] w4].
    intros -> Hs. exfalso. now apply Hs.
  - unfold bind at 1. rewrite insert_contributor_run. cbv zeta.
    destruct (up w2 && _ && _ && _); [|now intros ->].
    cbn [error data ok]. unfold bind.
    destruct (updatePoolTotals _ _) as [[] w4].
    intros -> Hs. exfalso. now apply Hs.
Qed.

(** A request that is not answered with status 200 has changed nothing in
    the tables, whichever store call failed. *)
Theorem failed_request_changes_nothing (e : env) (req : request num)
    (w : world num) :
  status (fst (serve e req w)) <> 200 ->
  db (snd (serve e req w)) = db w.
Proof.
  pose proof (serve_by_caller e req w) as Hs.
  destruct (caller e req) as [u|]; [|now destruct Hs].
  destruct Hs as [token ->].
  set (w1 := checked w token). change (db w) with (db w1).
  unfold dispatch, with_json.
  repeat match goal with
         | |- context [if ?c then _ else _] => destruct c
         end;
    try (destruct (json req) as [b|]; [|reflexivity]);
    try apply register_failure;
    try apply heartbeat_failure;
    try apply disconnect_failure;
    intros _;
    first [ apply reads_only_list_pools
          | apply reads_only_get_pool
          | apply reads_only_lookup_invite
          | reflexivity ].
Qed.

(** Only POST /register, POST /heartbeat and POST /disconnect write: every
    other request, known route or not, leaves the tables as they were. *)
Theorem only_three_routes_write (e : env) (req : request num)
    (w : world num) :
  ~ (method req = "POST" /\
     (route req = "/register" \/ route req = "/heartbeat"
      \/ route req = "/disconnect")) ->
  db (snd (serve e req w)) = db w.
Proof.
  intros Hroute.
  pose proof (serve_by_caller e req w) as Hs.
  destruct (caller e req) as [u|]; [|now destruct Hs].
  destruct Hs as [token ->].
  set (w1 := checked w token). change (db w) with (db w1).
  unfold dispatch.
  destruct (String.eqb_spec (method req) "POST") as [Hm | Hm]; cbn [andb].
  - destruct (String.eqb_spec (route req) "/register");
      [exfalso; apply Hroute; auto|].
    destruct (String.eqb_spec (route req) "/heartbeat");
      [exfalso; apply Hroute; auto|].
    destruct (String.eqb_spec (route req) "/disconnect");
      [exfalso; apply Hroute; auto|].
    rewrite Hm. cbn.
    destruct (startsWith (route req) "/join/");
      [exact (reads_only_lookup_invite (route req) w1) | reflexivity].
  - destruct (method req =? "GET"); cbn [andb]; [|reflexivity].
    destruct (route req =? "/pools");
      [exact (reads_only_list_pools u w1)|].
    destruct (startsWith (route req) "/pool/");
      [exact (reads_only_get_pool (route req) w1) | reflexivity].
Qed.

End ApiGuarantees.

(** * The read routes, the prefix and the validation *)

Section ApiRoutes.

Context {num : Type} `{JsNumber num}.

Lemma replace_prefix (pat rep s : string) :
  replace pat rep (pat ++ s)%string = (rep ++ s)%string.
Proof.
  rewrite replace_unfold. now rewrite prefix_append, drop_append.
Qed.

Lemma filter_unique_key {A : Type} (key : A -> string) (v : string)
    (l : list A) (p : A) :
  NoDup (map key l) -> In p l -> key p = v ->
  filter (fun x => key x =? v) l = [p].
Proof.
  intros Hnd Hin Hk. apply (filter_by_key key); auto.
  - now apply String.eqb_eq.
  - intros r Hr. apply String.eqb_eq in Hr. congruence.
Qed.

Lemma filter_no_key {A : Type} (key : A -> string) (v : string)
    (l : list A) :
  (forall p, In p l -> key p <> v) -> filter (fun x => key x =? v) l = [].
Proof.
  intros Hno. apply filter_none. intros r Hr.
  apply String.eqb_neq. now apply Hno.
Qed.

(** POST /join/:invite_code resolves a code to its pool, by the unique
    invite code, and answers 404 for a code no pool has; either way it
    changes no table: looking a code up makes nobody a member. *)
Theorem invite_lookup (e : env) (req : request num) (u : string)
    (w : world num) (code : string) :
  method req = "POST" -> hd false (faults w) = false ->
  NoDup (map p_invite_code (pools (db w))) ->
  db (snd (dispatch e req ("/join/" ++ code) u w)) = db w /\
  (forall p, In p (pools (db w)) -> p_invite_code p = code ->
     fst (dispatch e req ("/join/" ++ code) u w) =
     {| status := 200;
        body := InviteFound (p_id p) (p_name p)
                  "Use /register with this pool_id to join" |}) /\
  ((forall p, In p (pools (db w)) -> p_invite_code p <> code) ->
     fst (dispatch e req ("/join/" ++ code) u w) =
     {| status := 404; body := ErrorBody "Invalid invite code" |}).
Proof.
  intros Hm Hup Hnd.
  assert (Hd : dispatch e req ("/join/" ++ code) u w =
               lookup_invite ("/join/" ++ code) w).
  { unfold dispatch. rewrite Hm. cbn. now rewrite prefix_empty. }
  rewrite Hd. split; [apply reads_only_lookup_invite|].
  unfold lookup_invite. rewrite (replace_prefix "/join/" "" code).
  cbn [append]. unfold bind. rewrite select_pool_single_run.
  unfold up. rewrite Hup. cbn [negb]. split.
  - intros p Hp Hc. now rewrite (filter_unique_key p_invite_code code _ p).
  - intros Hno. now rewrite (filter_no_key p_invite_code code).
Qed.

(** GET /pool/:id gives the full row of a pool to whoever asks: the answer
    does not depend on the caller, who need be neither its owner nor a
    contributor.  An id no pool has is answered 404. *)
Theorem pool_details_for_any_caller (e : env) (req : request num)
    (w : world num) (id : string) :
  method req = "GET" -> hd false (faults w) = false ->
  NoDup (map p_id (pools (db w))) ->
  (forall u u', dispatch e req ("/pool/" ++ id) u w =
                dispatch e req ("/pool/" ++ id) u' w) /\
  (forall p u, In p (pools (db w)) -> p_id p = id ->
     fst (dispatch e req ("/pool/" ++ id) u w) =
     {| status := 200; body := PoolDetails p |}) /\
  ((forall p, In p (pools (db w)) -> p_id p <> id) ->
   forall u, fst (dispatch e req ("/pool/" ++ id) u w) =
             {| status := 404; body := ErrorBody "Pool not found" |}).
Proof.
  intros Hm Hup Hnd.
  assert (Hd : forall u, dispatch e req ("/pool/" ++ id) u w =
                         get_pool ("/pool/" ++ id) w).
  { intros u. unfold dispatch. rewrite Hm. cbn. now rewrite prefix_empty. }
  split; [intros u u'; now rewrite !Hd|].
  assert (Hg : get_pool ("/pool/" ++ id) w =
               let r := single (filter (fun p => p_id p =? id)
                                       (pools (db w))) in
               (match usable r with
                | None => {| status := 404;
                             body := ErrorBody "Pool not found" |}
                | Some pool => {| status := 200; body := PoolDetails pool |}
                end,
                called w (From pools_table Select [("id", id)]))).
  { unfold get_pool. rewrite (replace_prefix "/pool/" "" id).
    cbn [append]. unfold bind. rewrite select_pool_single_run.
    unfold up. rewrite Hup. cbn [negb]. cbv zeta.
    now destruct (usable _). }
  split.
  - intros p u Hp Hid. rewrite Hd, Hg. cbv zeta.
    now rewrite (filter_unique_key p_id id _ p).
  - intros Hno u. rewrite Hd, Hg. cbv zeta.
    now rewrite (filter_no_key p_id id).
Qed.

Lemma find_unique_key (ps : list (pool num)) (p : pool num) :
  NoDup (map p_id ps) -> In p ps ->
  find (fun q => p_id q =? p_id p) ps = Some p.
Proof.
  intros Hnd Hin. induction ps as [|a ps IH]; [contradiction|].
  simpl in Hnd. inversion Hnd as [|? ? Hnotin Hnd']; subst. simpl.
  destruct Hin as [-> | Hin].
  - now rewrite String.eqb_refl.
  - destruct (String.eqb_spec (p_id a) (p_id p)) as [E | _]; [|now apply IH].
    exfalso. apply Hnotin. rewrite E. now apply in_map.
Qed.

(** GET /pools, when both reads go through: [owned_pools] holds exactly
    the pools the caller owns; [contributed_pools] has one entry per
    contributor row of the caller, each the pool of such a row, and every
    such pool is in it; no entry is null when every row's pool exists. *)
Theorem list_pools_answer (u : string) (w : world num) :
  hd false (faults w) = false -> hd false (tl (faults w)) = false ->
  exists contributed owned,
    fst (list_pools u w) =
      {| status := 200; body := PoolLists contributed owned |} /\
    (forall s, In s owned <->
               exists p, In p (pools (db w)) /\ p_owner_id p = u
                         /\ s = summary p) /\
    List.length contributed =
      List.length (filter (fun c => pc_user_id c =? u)
                          (pool_contributors (db w))) /\
    (forall s, In (Some s) contributed ->
               exists c p, In c (pool_contributors (db w)) /\
                           pc_user_id c = u /\ In p (pools (db w)) /\
                           p_id p = pc_pool_id c /\ s = summary p) /\
    (NoDup (map p_id (pools (db w))) ->
     forall c p, In c (pool_contributors (db w)) -> pc_user_id c = u ->
                 In p (pools (db w)) -> p_id p = pc_pool_id c ->
                 In (Some (summary p)) contributed) /\
    ((forall c, In c (pool_contributors (db w)) ->
                exists p, In p (pools (db w)) /\ p_id p = pc_pool_id c) ->
     ~ In None contributed).
Proof.
  intros Hup Hup'.
  unfold list_pools, bind, get_db, respond, ret.
  rewrite store_call_run. cbv beta iota.
  rewrite store_call_run. cbv beta iota.
  unfold up. cbn [called faults db]. rewrite Hup, Hup'. cbn [negb fst].
  eexists. eexists. split; [reflexivity|]. repeat split.
  - intros Hs. apply in_map_iff in Hs. destruct Hs as (p & <- & Hp).
    apply filter_In in Hp. destruct Hp as [Hp Ho].
    exists p. repeat split; auto. now apply String.eqb_eq.
  - intros (p & Hp & Ho & ->). apply in_map. apply filter_In.
    split; [assumption|]. now apply String.eqb_eq.
  - now rewrite length_map.
  - intros s Hs. apply in_map_iff in Hs. destruct Hs as (c & Hf & Hc).
    apply filter_In in Hc. destruct Hc as [Hc Hu].
    destruct (find _ _) as [p|] eqn:Hfind; [|discriminate].
    apply find_some in Hfind. destruct Hfind as [Hp Hid].
    injection Hf as <-. exists c, p. repeat split; auto.
    + now apply String.eqb_eq.
    + now apply String.eqb_eq.
  - intros Hnd c p Hc Hu Hp Hid. apply in_map_iff. exists c. split.
    + rewrite <- Hid. now rewrite (find_unique_key _ p Hnd Hp).
    + apply filter_In. split; [assumption|]. now apply String.eqb_eq.
  - intros Hfk Hnone. apply in_map_iff in Hnone.
    destruct Hnone as (c & Hf & Hc). apply filter_In in Hc.
    destruct Hc as [Hc _]. destruct (Hfk c Hc) as (p & Hp & Hid).
    destruct (find _ _) eqn:Hfind; [discriminate|].
    apply (find_none _ _ Hfind) in Hp.
    apply String.eqb_neq in Hp. contradiction.
Qed.

(** GET /pools does not report a store failure: a read that fails counts
    as an empty list, and the answer is still a success. *)
Theorem list_pools_swallows_failures (u : string) (w : world num) :
  hd false (faults w) = true -> hd false (tl (faults w)) = true ->
  fst (list_pools u w) = {| status := 200; body := PoolLists [] [] |}.
Proof.
  intros Hup Hup'.
  unfold list_pools, bind, get_db, respond, ret.
  rewrite store_call_run. cbv beta iota.
  rewrite store_call_run. cbv beta iota.
  unfold up. cbn [called faults db]. now rewrite Hup, Hup'.
Qed.

(** The three operations check their input before they touch the store: a
    body that cannot be parsed is answered 500, a missing or empty
    [pool_id] or [contributor_id] 400, and in both cases no store call has
    been made. *)
Theorem validation_before_store (e : env) (req : request num) (u : string)
    (w : world num) :
  method req = "POST" ->
  (json req = None ->
   forall path,
     path = "/register" \/ path = "/heartbeat" \/ path = "/disconnect" ->
     dispatch e req path u w =
     ({| status := 500; body := ErrorBody "Internal server error" |}, w)) /\
  (forall b, json req = Some b ->
     (truthy_str (b_pool_id b) = false ->
      dispatch e req "/register" u w =
      ({| status := 400; body := ErrorBody "pool_id is required" |}, w)) /\
     (truthy_str (b_contributor_id b) = false ->
      dispatch e req "/heartbeat" u w =
      ({| status := 400;
          body := ErrorBody "contributor_id is required" |}, w) /\
      dispatch e req "/disconnect" u w =
      ({| status := 400;
          body := ErrorBody "contributor_id is required" |}, w))).
Proof.
  intros Hm. split.
  - intros Hj path [-> | [-> | ->]]; unfold dispatch, with_json;
      rewrite Hm, Hj; reflexivity.
  - intros b Hj. split.
    + intros Hf. unfold dispatch, with_json, register.
      rewrite Hm, Hj, Hf. reflexivity.
    + intros Hf. unfold dispatch, with_json.
      rewrite Hm, Hj. cbn.
      now destruct (heartbeat_invalid e u b w Hf) as [-> ->].
Qed.

Lemma dispatch_ext (e : env) (req req' : request num) (path u : string) :
  method req = method req' -> json req = json req' ->
  dispatch e req path u = dispatch e req' path u.
Proof.
  intros Hm Hj. unfold dispatch, with_json. now rewrite Hm, Hj.
Qed.

(** The function prefix is optional: a request to ["/agent-api" ++ path] is
    served as the same request to [path]. *)
Theorem prefix_stripped (e : env) (req req' : request num) (w : world num) :
  method req = method req' -> authorization req = authorization req' ->
  json req = json req' ->
  pathname req = ("/agent-api" ++ pathname req')%string ->
  includes (pathname req') "/agent-api" = false ->
  serve e req w = serve e req' w.
Proof.
  intros Hm Ha Hj Hp Hfree. unfold serve.
  rewrite Hm, Ha, Hp, (replace_prefix "/agent-api" "" (pathname req')).
  cbn [append]. rewrite (replace_absent _ _ _ Hfree).
  destruct (method req' =? "OPTIONS"); [reflexivity|].
  destruct (negb _); [reflexivity|].
  unfold bind. destruct (auth_getUser e _ w) as [[user|] w1];
    [|reflexivity].
  now rewrite (dispatch_ext e req req').
Qed.

(** With the usual header [Bearer <token>], the verifier is asked about
    exactly [<token>], and the request acts for the user it names. *)
Theorem bearer_token_extracted (e : env) (req : request num)
    (w : world num) (token : string) :
  method req <> "OPTIONS" ->
  authorization req = Some ("Bearer " ++ token)%string ->
  caller e req = getUser e token /\
  exists rest,
    trace (snd (serve e req w)) = trace w ++ AuthGetUser token :: rest.
Proof.
  intros Hm Ha.
  assert (Hne : ("Bearer " ++ token)%string <> "") by discriminate.
  split.
  - unfold caller. rewrite (not_options req Hm), Ha.
    destruct (truthy_header _ Hne) as [-> ->].
    now rewrite (replace_prefix "Bearer " "" token).
  - rewrite (serve_with_header e req w _ Hm Ha Hne). cbv zeta.
    rewrite (replace_prefix "Bearer " "" token). cbn [append].
    destruct (getUser e token) as [u|].
    + destruct (extends_dispatch e req
                  (replace "/agent-api" "" (pathname req)) u
                  (checked w token)) as [rest Hr].
      exists rest. rewrite Hr. simpl. now rewrite <- app_assoc.
    + now exists [].
Qed.

End ApiRoutes.

(** * Operations on the caller's row *)

Section ApiRows.

Context {num : Type} `{JsNumber num}.

(** The answer of a successful register names the caller's one row in the
    pool: the row of before with the message of a reconnection, or a new row
    with the generated id and the message of a first registration. *)
Theorem register_reply (e : env) (u : string) (b : payload num)
    (w : world num) (poolId : string) :
  b_pool_id b = Some poolId -> poolId <> "" -> faults w = [] ->
  NoDup (map p_id (pools (db w))) ->
  In poolId (map p_id (pools (db w))) ->
  NoDup (map pc_id (pool_contributors (db w))) ->
  NoDup (map membership (pool_contributors (db w))) ->
  (~ In (fresh_id e) (map pc_id (pool_contributors (db w))) \/
   exists r, In r (pool_contributors (db w)) /\
             member_row poolId u r = true) ->
  exists c pool message,
    fst (register e u b w) =
      {| status := 200;
         body := Registered (pc_id c) (p_name pool) message |} /\
    In pool (pools (db w)) /\ p_id pool = poolId /\
    filter (member_row poolId u)
           (pool_contributors (db (snd (register e u b w)))) = [c] /\
    ((message = "Agent reconnected to pool" /\
      exists r, In r (pool_contributors (db w)) /\
                member_row poolId u r = true /\ pc_id r = pc_id c) \/
     (message = "Agent registered successfully" /\
      pc_id c = fresh_id e /\
      forall r, In r (pool_contributors (db w)) ->
                member_row poolId u r = false)).
Proof.
  intros Hid Hne Hq Hpk Hpool Hck Hcu Hfresh.
  destruct (register_step e u b w poolId Hid Hne Hq Hpk Hpool Hck Hcu Hfresh)
    as (_ & _ & _ & _ & _ & _ & _ & c & Hc & _).
  destruct (register_run e u b w poolId Hid Hne Hq) as [tr Hrun].
  apply in_map_iff in Hpool. destruct Hpool as (pool & Hpid & Hpin).
  rewrite (filter_unique_key p_id poolId _ pool Hpk Hpin Hpid) in Hrun.
  change (fun c : pool_contributor num =>
            (pc_pool_id c =? poolId) && (pc_user_id c =? u))
    with (member_row (num:=num) poolId u) in Hrun.
  destruct (filter (member_row poolId u) (pool_contributors (db w)))
    as [|existing rest] eqn:Hkey.
  - destruct Hfresh as [Hfresh | (r & Hr & Hm)];
      [|now rewrite (filter_nil_none _ _ Hkey r Hr) in Hm].
    rewrite (existsb_none _ (pool_contributors (db w))) in Hrun.
    2:{ intros x Hx. apply String.eqb_neq. intros E. apply Hfresh.
        rewrite <- E. now apply in_map. }
    rewrite (existsb_none (member_row poolId u)) in Hrun
      by exact (filter_nil_none _ _ Hkey).
    assert (Hhas : existsb (fun p => p_id p =? poolId) (pools (db w)) = true).
    { apply existsb_exists. exists pool. split; [assumption|].
      now apply String.eqb_eq. }
    rewrite Hhas in Hrun. cbn [negb andb] in Hrun.
    pose proof Hc as Hc0.
    rewrite Hrun in Hc. cbn [fst snd quiet db] in Hc.
    rewrite aggregate_contributors in Hc.
    cbn [set_pool_contributors pool_contributors] in Hc.
    assert (Hrow : register_insert e u poolId b = c).
    { apply (filter_single_in _ _ _ _ Hc).
      - apply in_or_app. right. now left.
      - unfold member_row. simpl. now rewrite !String.eqb_refl. }
    exists c, pool, "Agent registered successfully".
    split; [rewrite Hrun; cbn [fst]; now rewrite <- Hrow|].
    split; [assumption|]. split; [assumption|]. split; [exact Hc0|].
    right. split; [reflexivity|]. split; [now rewrite <- Hrow|].
    exact (filter_nil_none _ _ Hkey).
  - assert (Hpicked : In existing (filter (member_row poolId u)
                                          (pool_contributors (db w))))
      by (rewrite Hkey; now left).
    apply filter_In in Hpicked. destruct Hpicked as [Hex Hexm].
    assert (Hs : filter (member_row poolId u)
                        (pool_contributors (db w)) = [existing]).
    { apply (filter_by_key membership); auto.
      intros r Hr. apply member_row_true in Hr. rewrite Hr.
      symmetry. now apply member_row_true. }
    rewrite Hkey in Hs. injection Hs as ->.
    rewrite (filter_unique_key pc_id (pc_id existing) _ existing Hck Hex
               eq_refl) in Hrun.
    pose proof Hc as Hc0.
    rewrite Hrun in Hc. cbn [fst snd quiet db] in Hc.
    rewrite aggregate_contributors in Hc.
    cbn [set_pool_contributors pool_contributors] in Hc.
    assert (Hrow : register_update e b existing = c).
    { apply (filter_single_in _ _ _ _ Hc); [|exact Hexm].
      apply in_map_iff. exists existing. split; [|assumption].
      now rewrite String.eqb_refl. }
    exists c, pool, "Agent reconnected to pool".
    split; [rewrite Hrun; cbn [fst]; now rewrite <- Hrow|].
    split; [assumption|]. split; [assumption|]. split; [exact Hc0|].
    left. split; [reflexivity|]. exists existing.
    split; [assumption|]. split; [assumption|]. now rewrite <- Hrow.
Qed.

(** The [contributor_id] a register returns is the handle of the caller's
    row: a heartbeat and a disconnect of the same caller with it succeed
    (when the store does not fail), and those of any other caller are
    refused. *)
Theorem registered_id_is_accepted (e e' : env) (u : string)
    (b b' : payload num) (w : world num)
    (poolId contributorId name message : string) :
  b_pool_id b = Some poolId -> poolId <> "" -> faults w = [] ->
  NoDup (map p_id (pools (db w))) ->
  In poolId (map p_id (pools (db w))) ->
  NoDup (map pc_id (pool_contributors (db w))) ->
  NoDup (map membership (pool_contributors (db w))) ->
  (~ In (fresh_id e) (map pc_id (pool_contributors (db w))) \/
   exists r, In r (pool_contributors (db w)) /\
             member_row poolId u r = true) ->
  body (fst (register e u b w)) = Registered contributorId name message ->
  contributorId <> "" ->
  b_contributor_id b' = Some contributorId ->
  let w1 := snd (register e u b w) in
  status (fst (heartbeat e' u b' w1)) = 200 /\
  status (fst (disconnect e' u b' w1)) = 200 /\
  (forall v, v <> u ->
             status (fst (heartbeat e' v b' w1)) = 500 /\
             status (fst (disconnect e' v b' w1)) = 500).
Proof.
  intros Hid Hne Hq Hpk Hpool Hck Hcu Hfresh Hbody Hcid Hb' w1.
  destruct (register_step e u b w poolId Hid Hne Hq Hpk Hpool Hck Hcu Hfresh)
    as (_ & Hq1 & _ & Hck1 & _).
  destruct (register_reply e u b w poolId Hid Hne Hq Hpk Hpool Hck Hcu Hfresh)
    as (c & pool & msg & Hreply & _ & _ & Hc & _).
  rewrite Hreply in Hbody. cbn [body] in Hbody.
  injection Hbody as Hcid' _ _.
  fold w1 in Hq1, Hck1, Hc.
  destruct (filter_single_picked _ _ _ Hc) as [Hin Hm].
  apply member_row_true in Hm. injection Hm as _ Hcu'.
  assert (Hmine : filter (owned_by contributorId u)
                         (pool_contributors (db w1)) = [c]).
  { apply (filter_by_key pc_id); auto.
    - now apply owned_by_true.
    - intros r Hr. apply owned_by_true in Hr. destruct Hr as [-> _].
      now symmetry. }
  assert (Hothers : forall v, v <> u ->
            filter (owned_by contributorId v)
                   (pool_contributors (db w1)) = []).
  { intros v Hv. apply filter_none. intros r Hr.
    destruct (owned_by contributorId v r) eqn:Ho; [|reflexivity].
    apply owned_by_true in Ho. destruct Ho as [Hrid Hru].
    assert (Hrc : r = c).
    { apply (filter_single_in _ _ _ _ Hmine Hr).
      apply owned_by_true. split; [assumption|].
      assert (Hf : filter (fun x => pc_id x =? contributorId)
                          (pool_contributors (db w1)) = [c])
        by now apply filter_unique_key.
      rewrite (filter_single_in _ _ _ r Hf Hr); [assumption|].
      now apply String.eqb_eq. }
    subst r. congruence. }
  rewrite (heartbeat_run e' u b' w1 _ Hb' Hcid),
          (disconnect_run e' u b' w1 _ Hb' Hcid).
  cbv zeta. rewrite (quiet_up w1 Hq1), Hmine.
  split; [now destruct (resources_present b')|].
  split; [reflexivity|].
  intros v Hv.
  rewrite (heartbeat_run e' v b' w1 _ Hb' Hcid),
          (disconnect_run e' v b' w1 _ Hb' Hcid).
  cbv zeta. rewrite (quiet_up w1 Hq1), (Hothers v Hv). now split.
Qed.

(** A disconnect of a row the caller owns changes that row in place, to
    status ["offline"] with [last_seen] the current time; the row keeps its
    resources, every other row is as it was, and the [pools] table, with
    its totals, is not touched. *)
Theorem disconnect_effect (e : env) (user : string) (b : payload num)
    (w : world num) (c : pool_contributor num) (contributorId : string) :
  b_contributor_id b = Some contributorId -> contributorId <> "" ->
  NoDup (map pc_id (pool_contributors (db w))) ->
  In c (pool_contributors (db w)) ->
  pc_id c = contributorId -> pc_user_id c = user ->
  hd false (faults w) = false ->
  fst (disconnect e user b w) =
    {| status := 200; body := Success "Agent disconnected" |} /\
  pools (db (snd (disconnect e user b w))) = pools (db w) /\
  exists before after c',
    pool_contributors (db w) = before ++ c :: after /\
    pool_contributors (db (snd (disconnect e user b w))) =
      before ++ c' :: after /\
    row_identity c' = row_identity c /\
    pc_cpu_cores c' = pc_cpu_cores c /\ pc_ram_gb c' = pc_ram_gb c /\
    pc_storage_gb c' = pc_storage_gb c /\
    pc_status c' = "offline" /\ pc_last_seen c' = Some (now e).
Proof.
  intros Hid Hne Hnd Hin Hcid Hcu Hup.
  assert (Hown : owned_by contributorId user c = true)
    by now apply owned_by_true.
  assert (Hf : filter (owned_by contributorId user)
                      (pool_contributors (db w)) = [c]).
  { apply (filter_by_key pc_id); auto.
    intros r Hr. apply owned_by_true in Hr. destruct Hr as [-> _].
    now symmetry. }
  destruct (filter_single_split _ (disconnect_update e) _ _ Hf)
    as (before & after & Hl & Hmap & _ & _).
  rewrite (disconnect_run e user b w contributorId Hid Hne). cbv zeta.
  unfold up. rewrite Hup, Hf. cbn [negb fst snd with_db db].
  repeat split.
  exists before, after, (disconnect_update e c).
  cbn [set_pool_contributors pool_contributors].
  repeat split; assumption.
Qed.

(** A heartbeat stores a resource it carries as it was sent, without the
    coercion of a register: a number as that number, [null] as NULL. *)
Theorem heartbeat_stores_sent (e : env) (user : string) (b : payload num)
    (w : world num) (c : pool_contributor num) (contributorId : string) :
  b_contributor_id b = Some contributorId -> contributorId <> "" ->
  NoDup (map pc_id (pool_contributors (db w))) ->
  In c (pool_contributors (db w)) ->
  pc_id c = contributorId -> pc_user_id c = user ->
  hd false (faults w) = false ->
  exists before after c',
    pool_contributors (db w) = before ++ c :: after /\
    pool_contributors (db (snd (heartbeat e user b w))) =
      before ++ c' :: after /\
    (forall n, b_cpu_cores b = Val n -> pc_cpu_cores c' = Some n) /\
    (b_cpu_cores b = Null -> pc_cpu_cores c' = None) /\
    (forall n, b_ram_gb b = Val n -> pc_ram_gb c' = Some n) /\
    (b_ram_gb b = Null -> pc_ram_gb c' = None) /\
    (forall n, b_storage_gb b = Val n -> pc_storage_gb c' = Some n) /\
    (b_storage_gb b = Null -> pc_storage_gb c' = None).
Proof.
  intros Hid Hne Hnd Hin Hcid Hcu Hup.
  assert (Hown : owned_by contributorId user c = true)
    by now apply owned_by_true.
  assert (Hf : filter (owned_by contributorId user)
                      (pool_contributors (db w)) = [c]).
  { apply (filter_by_key pc_id); auto.
    intros r Hr. apply owned_by_true in Hr. destruct Hr as [-> _].
    now symmetry. }
  destruct (filter_single_split _ (heartbeat_update e b) _ _ Hf)
    as (before & after & Hl & Hmap & _ & _).
  exists before, after, (heartbeat_update e b c).
  split; [assumption|]. split.
  - rewrite (heartbeat_run e user b w contributorId Hid Hne). cbv zeta.
    unfold up. rewrite Hup, Hf. cbn [negb].
    destruct (resources_present b); cbn [snd];
      [rewrite updatePoolTotals_contributors|]; exact Hmap.
  - simpl. repeat split; intros; subst;
      match goal with E : _ = _ |- _ => now rewrite E end.
Qed.

(** ** The aggregator *)

Lemma aggregate_idempotent (poolId : string) (d : database num) :
  aggregate poolId (aggregate poolId d) = aggregate poolId d.
Proof.
  unfold aggregate, set_pools.
  cbn [pools pool_contributors servers server_pool_assignments].
  f_equal. rewrite map_map. apply map_ext. intros p.
  destruct (p_id p =? poolId) eqn:E; [|now rewrite E].
  cbn [with_totals p_id]. now rewrite E.
Qed.

(** Running the aggregator again on a pool changes nothing: its result
    depends on the contributor rows alone, not on the totals it replaces. *)
Theorem updatePoolTotals_idempotent (poolId : string) (w : world num) :
  faults w = [] ->
  db (snd (updatePoolTotals poolId (snd (updatePoolTotals poolId w)))) =
  db (snd (updatePoolTotals poolId w)).
Proof.
  intros Hq.
  destruct (updatePoolTotals_quiet poolId w Hq) as [Hd Hq1].
  destruct (updatePoolTotals_quiet poolId _ Hq1) as [Hd' _].
  rewrite Hd', Hd. apply aggregate_idempotent.
Qed.

(** For an id no pool has, the aggregator changes nothing, whether its
    calls fail or not. *)
Theorem updatePoolTotals_unknown_pool (poolId : string) (w : world num) :
  (forall p, In p (pools (db w)) -> p_id p <> poolId) ->
  db (snd (updatePoolTotals poolId w)) = db w.
Proof.
  intros Hno. rewrite updatePoolTotals_run. cbv zeta.
  destruct (up w); [|reflexivity].
  destruct (up (called w _)); [|reflexivity].
  cbn [snd with_db db].
  assert (Hmap : forall (g : pool num -> pool num) (ps : list (pool num)),
             (forall p, In p ps -> p_id p <> poolId) ->
             map (fun p => if p_id p =? poolId then g p else p) ps = ps).
  { intros g ps Hps. rewrite <- (map_id ps) at 2. apply map_ext_in.
    intros p Hp. apply Hps in Hp. apply String.eqb_neq in Hp.
    now rewrite Hp. }
  rewrite Hmap by assumption. now destruct (db w).
Qed.

(** ** Store failures in the middle of an operation *)

(** A failure of the aggregator does not undo or fail the heartbeat that
    called it: when the update goes through and the aggregator's read then
    fails, the answer is still the success, the row is updated, and the
    [pools] table keeps the totals of before. *)
Theorem heartbeat_survives_aggregator_failure (e : env) (user : string)
    (b : payload num) (w : world num) (c : pool_contributor num)
    (contributorId : string) :
  b_contributor_id b = Some contributorId -> contributorId <> "" ->
  NoDup (map pc_id (pool_contributors (db w))) ->
  In c (pool_contributors (db w)) ->
  pc_id c = contributorId -> pc_user_id c = user ->
  resources_present b = true ->
  hd false (faults w) = false -> hd false (tl (faults w)) = true ->
  fst (heartbeat e user b w) =
    {| status := 200; body := Success "Heartbeat received" |} /\
  pools (db (snd (heartbeat e user b w))) = pools (db w) /\
  In (heartbeat_update e b c)
     (pool_contributors (db (snd (heartbeat e user b w)))).
Proof.
  intros Hid Hne Hnd Hin Hcid Hcu Hres Hup Hup'.
  assert (Hf : filter (owned_by contributorId user)
                      (pool_contributors (db w)) = [c]).
  { apply (filter_by_key pc_id); auto.
    - now apply owned_by_true.
    - intros r Hr. apply owned_by_true in Hr. destruct Hr as [-> _].
      now symmetry. }
  rewrite (heartbeat_run e user b w contributorId Hid Hne). cbv zeta.
  unfold up. rewrite Hup, Hf, Hres. cbn [negb fst snd].
  rewrite updatePoolTotals_run. cbv zeta.
  unfold up. cbn [with_db called faults]. rewrite Hup'.
  cbn [negb snd with_db called db set_pool_contributors pools
       pool_contributors].
  repeat split. apply in_map_iff. exists c. split; [|assumption].
  assert (Hown : owned_by contributorId user c = true)
    by now apply owned_by_true.
  now rewrite Hown.
Qed.

(** The register does not look at the error of its query for an existing
    row.  When that query fails for a caller who has a row in the pool, the
    handler takes them for new, the insert runs into
    [UNIQUE(pool_id, user_id)], and the answer is 500 with the message of a
    failed first registration; nothing is written. *)
Theorem register_lookup_failure (e : env) (u : string) (b : payload num)
    (w : world num) (poolId : string) (pool : pool num)
    (r : pool_contributor num) :
  b_pool_id b = Some poolId -> poolId <> "" ->
  NoDup (map p_id (pools (db w))) ->
  In pool (pools (db w)) -> p_id pool = poolId ->
  In r (pool_contributors (db w)) -> member_row poolId u r = true ->
  hd false (faults w) = false -> hd false (tl (faults w)) = true ->
  fst (register e u b w) =
    {| status := 500; body := ErrorBody "Failed to register agent" |} /\
  db (snd (register e u b w)) = db w.
Proof.
  intros Hid Hne Hpk Hpin Hpid Hr Hm Hup Hup'.
  unfold register. destruct (truthy_id _ _ Hid Hne) as [-> ->].
  cbn [negb]. cbv beta iota zeta. unfold bind.
  rewrite select_pool_single_run. unfold up. rewrite Hup. cbn [negb].
  rewrite (filter_unique_key p_id poolId _ pool Hpk Hpin Hpid).
  cbn [single usable error data ok].
  rewrite select_existing_run. unfold up. cbn [called faults].
  rewrite Hup'. cbn [negb data failed].
  rewrite insert_contributor_run. cbv zeta.
  cbn [register_insert pc_id pc_pool_id pc_user_id called db].
  assert (Hdup : existsb (fun c => (pc_pool_id c =? poolId)
                                   && (pc_user_id c =? u))
                         (pool_contributors (db w)) = true).
  { apply existsb_exists. now exists r. }
  rewrite Hdup. cbn [negb]. rewrite !andb_false_r. cbn [andb].
  now split.
Qed.

End ApiRows.

(** * Concrete runs *)

Lemma backing_contributor_member :
  pool_member (backed_state Z) (backing_pool Z) "member".
Proof.
  right. exists (backing_contributor Z). repeat split. now left.
Defined.

Lemma users_share_pool_reflexive_symmetric_witness :
  users_share_pool (backed_state Z) (Some "member") (Some "member") = true
  /\ users_share_pool (backed_state Z) (Some "boss") (Some "member") = true
  /\ users_share_pool (backed_state Z) (Some "member") (Some "boss") = true.
Proof.
  destruct (users_share_pool_reflexive_symmetric (backed_state Z))
    as [Hrefl Hsym].
  split.
  - apply (Hrefl "member" (backing_pool Z));
      [now left | exact backing_contributor_member].
  - apply (Hsym "boss" "member" (backing_pool Z));
      [now left | now left | exact backing_contributor_member].
Defined.

(** C6 fails for a user whose only pool relationship goes through a
    server: in [backed_state], [owner] owns server [S], which is assigned to
    pool [P], and so shares a pool with [P]'s contributor; [owner] neither
    owns nor contributes to any pool, and the function is false on
    ([owner], [owner]). *)
Lemma server_owner_not_reflexive :
  In backed_server (servers (backed_state Z)) /\
  s_owner_id backed_server = "owner" /\
  In backing_assignment (server_pool_assignments (backed_state Z)) /\
  spa_server_id backing_assignment = s_id backed_server /\
  In (backing_pool Z) (pools (backed_state Z)) /\
  p_id (backing_pool Z) = spa_pool_id backing_assignment /\
  users_share_pool (backed_state Z) (Some "owner") (Some "member") = true /\
  users_share_pool (backed_state Z) (Some "owner") (Some "boss") = true /\
  users_share_pool (backed_state Z) (Some "owner") (Some "owner") = false.
Proof.
  repeat split; try reflexivity; now left.
Qed.

Lemma users_share_pool_server_owner_asymmetric_witness :
  users_share_pool (backed_state Z) (Some "owner") (Some "member") = true.
Proof.
  apply (proj1 (users_share_pool_server_owner_asymmetric (num:=Z))
           (backed_state Z) backed_server backing_assignment (backing_pool Z));
    try reflexivity; try (now left).
  exact backing_contributor_member.
Defined.

Lemma updatePoolTotals_read_guard_witness :
  db (snd (updatePoolTotals "P" failing_read)) = lone_pool_store /\
  map p_total_cpu_cores (pools (db (snd (updatePoolTotals "P" working_read))))
    = [Some 0%Z].
Proof.
  split.
  - apply (proj1 (updatePoolTotals_read_guard "P" failing_read)). reflexivity.
  - destruct (proj2 (updatePoolTotals_read_guard "P" working_read)
                eq_refl eq_refl eq_refl) as [Hp _].
    rewrite Hp. reflexivity.
Defined.

(** C1 fails after a disconnect: from a store whose totals are right, [A]
    registers 4 cores, 8 GB and 50 GB (the totals follow), then disconnects;
    the pool still advertises 4, 8 and 50 with no contributor online.  The
    same happens when [A] goes offline through a heartbeat that carries only
    a status, and a registration whose aggregator read fails is answered
    with success while the totals stay at 0. *)
Lemma totals_stale_after_disconnect :
  totals_consistent empty_pool_store empty_pool /\
  db after_registration = joined_store_at "10:00" /\
  totals_consistent (db after_registration) lone_pool /\
  (status (fst disconnection) = 200 /\
   pools (db (snd disconnection)) = [lone_pool] /\
   online_sum pc_cpu_cores "P" (db (snd disconnection)) = 0%Z /\
   ~ totals_consistent (db (snd disconnection)) lone_pool) /\
  (status (fst offline_heartbeat) = 200 /\
   pools (db (snd offline_heartbeat)) = [lone_pool] /\
   ~ totals_consistent (db (snd offline_heartbeat)) lone_pool) /\
  (status (fst unaggregated_registration) = 200 /\
   pools (db (snd unaggregated_registration)) = [empty_pool] /\
   online_sum pc_cpu_cores "P" (db (snd unaggregated_registration)) = 4%Z /\
   ~ totals_consistent (db (snd unaggregated_registration)) empty_pool).
Proof.
  repeat split; try reflexivity;
    intros [Hcpu _]; vm_compute in Hcpu; discriminate.
Qed.

Lemma totals_recomputed_after_resource_change_witness :
  totals_consistent
    (db (snd (register at_ten "A" first_registration
                       (quiet empty_pool_store []))))
    lone_pool.
Proof.
  destruct (totals_recomputed_after_resource_change
              at_ten "A" first_registration
              (quiet empty_pool_store []) eq_refl) as [Hregister _].
  specialize (Hregister eq_refl). cbv zeta in Hregister.
  destruct (Hregister lone_pool) as [Hsame _].
  - left. reflexivity.
  - apply Hsame. reflexivity.
Defined.

Lemma register_twice_overwrites_witness :
  exists c p,
    filter (member_row "P" "A") (pool_contributors (db registered_twice))
      = [c] /\
    pc_cpu_cores c = Some 2%Z /\ pc_ram_gb c = Some 0%Z /\
    pc_storage_gb c = Some 0%Z /\
    filter (fun p => p_id p =? "P") (pools (db registered_twice)) = [p] /\
    p_total_cpu_cores p = Some 2%Z /\ p_total_ram_gb p = Some 0%Z /\
    p_total_storage_gb p = Some 0%Z.
Proof.
  assert (Hne : "P" <> "") by discriminate.
  assert (Hpools : NoDup (map p_id (pools (db (quiet empty_pool_store [])))))
    by (repeat constructor; intros []).
  assert (Hrows : NoDup (map pc_id
                           (pool_contributors
                              (db (quiet empty_pool_store [])))))
    by constructor.
  assert (Hkeys : NoDup (map membership
                           (pool_contributors
                              (db (quiet empty_pool_store [])))))
    by constructor.
  destruct (register_twice_overwrites at_ten at_eleven "A"
              first_registration second_registration
              (quiet empty_pool_store []) "P"
              eq_refl eq_refl Hne eq_refl Hpools (or_introl eq_refl)
              Hrows Hkeys (fun absurd => absurd))
    as (_ & _ & c & Hc & Hcpu & Hram & Hsto & _ & Htotals).
  destruct Htotals as (p & Hp & Tcpu & Tram & Tsto).
  { intros r []. }
  exists c, p. repeat split; assumption.
Defined.

Lemma heartbeat_partial_update_witness :
  exists c',
    pool_contributors
      (db (snd (heartbeat at_ten "A" (contributor_body "c1" None Undefined)
                          (quiet joined_store [])))) = [c'] /\
    pc_cpu_cores c' = Some 4%Z /\ pc_ram_gb c' = Some 8%Z /\
    pc_storage_gb c' = Some 50%Z /\
    pc_last_seen c' = Some "10:00" /\ pc_status c' = "online".
Proof.
  assert (Hne : "c1" <> "") by discriminate.
  assert (Hst : b_status (contributor_body "c1" None Undefined) <> Some "")
    by discriminate.
  assert (Hrows : NoDup (map pc_id
                           (pool_contributors (db (quiet joined_store [])))))
    by (repeat constructor; intros []).
  destruct (heartbeat_partial_update at_ten "A"
              (contributor_body "c1" None Undefined)
              (quiet joined_store []) row_of_A "c1"
              eq_refl Hne Hrows (or_introl eq_refl) eq_refl eq_refl eq_refl
              Hst)
    as (before & after & c' & Hrows0 & Hrows1 & _ & _ & _ & Hseen & Hstatus
        & Hcpu & Hram & Hsto).
  destruct before as [|x before]; simpl in Hrows0.
  - injection Hrows0 as <-. exists c'. rewrite Hrows1.
    rewrite (Hcpu eq_refl), (Hram eq_refl), (Hsto eq_refl), Hseen, Hstatus.
    repeat split.
  - injection Hrows0 as _ Hrest. destruct before; discriminate.
Defined.


(** C5 fails on the status: [B] heartbeats or disconnects [A]'s row, or a
    row that does not exist, and is answered 500, not 404.  [A]'s row is
    untouched. *)
Lemma foreign_contributor_is_500 :
  fst stolen_heartbeat =
    {| status := 500; body := ErrorBody "Failed to update heartbeat" |} /\
  fst stolen_disconnect =
    {| status := 500; body := ErrorBody "Failed to disconnect" |} /\
  fst unknown_heartbeat =
    {| status := 500; body := ErrorBody "Failed to update heartbeat" |} /\
  status (fst stolen_heartbeat) <> 404 /\
  status (fst stolen_disconnect) <> 404 /\
  status (fst unknown_heartbeat) <> 404 /\
  db (snd stolen_heartbeat) = joined_store /\
  db (snd stolen_disconnect) = joined_store.
Proof.
  repeat split; try reflexivity; vm_compute; discriminate.
Qed.

Lemma foreign_contributor_rejected_witness :
  status (fst (heartbeat at_ten "B" (contributor_body "c1" None (Val 64%Z))
                         (quiet joined_store []))) = 500 /\
  db (snd (disconnect at_ten "B" (contributor_body "c1" None Undefined)
                      (quiet joined_store []))) = joined_store.
Proof.
  split.
  - apply (foreign_contributor_rejected at_ten "B"
             (contributor_body "c1" None (Val 64%Z)) (quiet joined_store [])).
    intros c [<- | []]. reflexivity.
  - apply (foreign_contributor_rejected at_ten "B"
             (contributor_body "c1" None Undefined) (quiet joined_store [])).
    intros c [<- | []]. reflexivity.
Defined.

Lemma unauthenticated_rejected_witness :
  status (fst (serve at_ten
                 (post "/register" "Bearer stale" first_registration)
                 (quiet empty_pool_store []))) = 401.
Proof.
  apply (unauthenticated_rejected at_ten
           (post "/register" "Bearer stale" first_registration)
           (quiet empty_pool_store [])).
  - discriminate.
  - right. exists "Bearer stale". split; reflexivity.
Defined.

Lemma bare_token_forwarded_witness :
  exists rest,
    trace (snd (serve at_ten
                  (post "/pools" "token-A" (register_body Null Null Null))
                  (quiet empty_pool_store []))) =
    AuthGetUser "token-A" :: rest.
Proof.
  assert (Hm : method (post "/pools" "token-A" (register_body Null Null Null))
               <> "OPTIONS") by discriminate.
  assert (Hh : "token-A" <> "") by discriminate.
  destruct (bare_token_forwarded at_ten
              (post "/pools" "token-A" (register_body Null Null Null))
              (quiet empty_pool_store []) "token-A" Hm eq_refl Hh eq_refl)
    as ((rest & Hrest) & Hbare & _).
  exists rest. rewrite Hrest, (Hbare eq_refl). reflexivity.
Defined.

(** ** Concrete runs of the further properties *)

Lemma users_share_pool_iff_witness :
  users_share_pool (backed_state Z) (Some "boss") (Some "member") = true.
Proof.
  apply (proj2 (users_share_pool_iff (backed_state Z) "boss" "member")).
  left. exists (backing_pool Z).
  split; [now left|]. split; [now left | exact backing_contributor_member].
Defined.

Lemma profile_policy_witness :
  users_can_view_related_profiles (backed_state Z) (Some "owner") "member" =
  users_share_pool (backed_state Z) (Some "owner") (Some "member").
Proof.
  apply (proj1 (proj2 (profile_policy (backed_state Z) "owner" "member"))).
  discriminate.
Defined.

Lemma joined_keys :
  NoDup (map p_id (pools joined_store)) /\
  NoDup (map pc_id (pool_contributors joined_store)) /\
  NoDup (map membership (pool_contributors joined_store)).
Proof. repeat split; repeat constructor; intros []. Defined.

Lemma empty_pool_keys :
  NoDup (map p_id (pools empty_pool_store)) /\
  NoDup (map pc_id (pool_contributors empty_pool_store)) /\
  NoDup (map membership (pool_contributors empty_pool_store)).
Proof. repeat split; repeat constructor; intros []. Defined.

Lemma joined_invites : NoDup (map p_invite_code (pools joined_store)).
Proof. repeat constructor; intros []. Defined.

Lemma serve_other_users_rows_witness :
  filter (fun c => pc_user_id c =? "A")
         (pool_contributors (db (snd stolen_heartbeat))) =
  [row_of_A].
Proof.
  unfold stolen_heartbeat.
  rewrite (serve_other_users_rows at_ten
             (post "/heartbeat" "Bearer token-B"
                   (contributor_body "c1" None (Val 64%Z)))
             (quiet joined_store []) "A").
  - reflexivity.
  - discriminate.
Defined.

Lemma serve_keeps_keys_witness :
  NoDup (map pc_id (pool_contributors (db after_registration))).
Proof.
  unfold after_registration.
  apply (serve_keeps_keys at_ten registration (quiet empty_pool_store []));
    apply empty_pool_keys.
Defined.

Lemma failed_request_changes_nothing_witness :
  db (snd stolen_heartbeat) = joined_store.
Proof.
  unfold stolen_heartbeat.
  apply (failed_request_changes_nothing at_ten
           (post "/heartbeat" "Bearer token-B"
                 (contributor_body "c1" None (Val 64%Z)))
           (quiet joined_store [])).
  discriminate.
Defined.

Lemma only_three_routes_write_witness :
  db (snd (serve at_ten (get "/pools" "Bearer token-A")
                 (quiet joined_store []))) = joined_store.
Proof.
  apply (only_three_routes_write at_ten (get "/pools" "Bearer token-A")
           (quiet joined_store [])).
  intros [Hm _]. discriminate.
Defined.

Lemma invite_lookup_witness :
  fst (dispatch at_ten
         (post "/join/INVITE01" "Bearer token-B"
               (contributor_body "" None Undefined))
         "/join/INVITE01" "B" (quiet joined_store [])) =
  {| status := 200;
     body := InviteFound "P" "shared"
               "Use /register with this pool_id to join" |}.
Proof.
  apply (proj1 (proj2 (invite_lookup at_ten
                         (post "/join/INVITE01" "Bearer token-B"
                               (contributor_body "" None Undefined))
                         "B" (quiet joined_store []) "INVITE01"
                         eq_refl eq_refl joined_invites))
               lone_pool (or_introl eq_refl) eq_refl).
Defined.

Lemma pool_details_for_any_caller_witness :
  fst (dispatch at_ten (get "/pool/P" "Bearer token-B") "/pool/P" "B"
                (quiet joined_store [])) =
  {| status := 200; body := PoolDetails lone_pool |}.
Proof.
  apply (proj1 (proj2 (pool_details_for_any_caller at_ten
                         (get "/pool/P" "Bearer token-B")
                         (quiet joined_store []) "P" eq_refl eq_refl
                         (proj1 joined_keys)))
               lone_pool "B" (or_introl eq_refl) eq_refl).
Defined.

Lemma list_pools_answer_witness :
  exists contributed owned,
    fst (list_pools "A" (quiet joined_store [])) =
      {| status := 200; body := PoolLists contributed owned |} /\
    List.length contributed = 1 /\
    In (Some (summary lone_pool)) contributed.
Proof.
  destruct (list_pools_answer "A" (quiet joined_store []) eq_refl eq_refl)
    as (contributed & owned & Hanswer & _ & Hlen & _ & Hall & _).
  exists contributed, owned. split; [assumption|]. split; [assumption|].
  apply (Hall (proj1 joined_keys) row_of_A lone_pool);
    try reflexivity; now left.
Defined.

Lemma list_pools_swallows_failures_witness :
  fst (list_pools "A" store_down) =
  {| status := 200; body := PoolLists [] [] |}.
Proof.
  apply (list_pools_swallows_failures "A" store_down); reflexivity.
Defined.

Lemma validation_before_store_witness :
  dispatch at_ten
    (post "/register" "Bearer token-A" (contributor_body "c1" None Undefined))
    "/register" "A" (quiet joined_store []) =
  ({| status := 400; body := ErrorBody "pool_id is required" |},
   quiet joined_store []).
Proof.
  apply (proj1 (proj2 (validation_before_store at_ten
                         (post "/register" "Bearer token-A"
                               (contributor_body "c1" None Undefined))
                         "A" (quiet joined_store []) eq_refl)
                      (contributor_body "c1" None Undefined) eq_refl)).
  reflexivity.
Defined.

Lemma prefix_stripped_witness :
  serve at_ten registration (quiet empty_pool_store []) =
  serve at_ten (post_unprefixed "/register" "Bearer token-A"
                                first_registration)
        (quiet empty_pool_store []).
Proof.
  apply (prefix_stripped at_ten registration
           (post_unprefixed "/register" "Bearer token-A" first_registration)
           (quiet empty_pool_store [])); reflexivity.
Defined.

Lemma bearer_token_extracted_witness :
  caller at_ten registration = Some "A".
Proof.
  assert (Hm : method registration <> "OPTIONS") by discriminate.
  rewrite (proj1 (bearer_token_extracted at_ten registration
                    (quiet empty_pool_store []) "token-A" Hm eq_refl)).
  reflexivity.
Defined.

Lemma register_reply_witness :
  exists (c : pool_contributor Z) (pool : pool Z),
    fst (register at_ten "A" first_registration (quiet empty_pool_store [])) =
    {| status := 200;
       body := Registered (pc_id c) (p_name pool)
                 "Agent registered successfully" |} /\
    pc_id c = "c1".
Proof.
  assert (Hne : "P" <> "") by discriminate.
  destruct (register_reply at_ten "A" first_registration
              (quiet empty_pool_store []) "P" eq_refl Hne eq_refl
              (proj1 empty_pool_keys) (or_introl eq_refl)
              (proj1 (proj2 empty_pool_keys)) (proj2 (proj2 empty_pool_keys))
              (or_introl (fun absurd => absurd)))
    as (c & pool & message & Hreply & _ & _ & _
        & [(_ & r & [] & _) | (-> & Hfresh & _)]).
  exists c, pool. split; assumption.
Defined.

Lemma registered_id_is_accepted_witness :
  status (fst (heartbeat at_eleven "A" (contributor_body "c1" None Undefined)
                 (snd (register at_ten "A" first_registration
                                (quiet empty_pool_store []))))) = 200.
Proof.
  assert (Hne : "P" <> "") by discriminate.
  assert (Hcid : "c1" <> "") by discriminate.
  apply (registered_id_is_accepted at_ten at_eleven "A" first_registration
           (contributor_body "c1" None Undefined)
           (quiet empty_pool_store []) "P" "c1" "shared"
           "Agent registered successfully" eq_refl Hne eq_refl
           (proj1 empty_pool_keys) (or_introl eq_refl)
           (proj1 (proj2 empty_pool_keys)) (proj2 (proj2 empty_pool_keys))
           (or_introl (fun absurd => absurd)) eq_refl Hcid eq_refl).
Defined.

Lemma disconnect_effect_witness :
  pools (db (snd (disconnect at_ten "A" (contributor_body "c1" None Undefined)
                             (quiet joined_store [])))) = [lone_pool].
Proof.
  assert (Hcid : "c1" <> "") by discriminate.
  apply (disconnect_effect at_ten "A" (contributor_body "c1" None Undefined)
           (quiet joined_store []) row_of_A "c1" eq_refl Hcid
           (proj1 (proj2 joined_keys)) (or_introl eq_refl)
           eq_refl eq_refl eq_refl).
Defined.

Lemma heartbeat_stores_sent_witness :
  map pc_cpu_cores
      (pool_contributors
         (db (snd (heartbeat at_ten "A" resized (quiet joined_store [])))))
    = [Some 16%Z] /\
  map pc_ram_gb
      (pool_contributors
         (db (snd (heartbeat at_ten "A" resized (quiet joined_store [])))))
    = [None].
Proof.
  assert (Hcid : "c1" <> "") by discriminate.
  destruct (heartbeat_stores_sent at_ten "A" resized (quiet joined_store [])
              row_of_A "c1" eq_refl Hcid (proj1 (proj2 joined_keys))
              (or_introl eq_refl) eq_refl eq_refl eq_refl)
    as (before & after & c' & Hrows & Hrows' & Hcpu & _ & _ & Hram & _).
  destruct before as [|x before]; simpl in Hrows.
  - injection Hrows as <-. rewrite Hrows'. simpl.
    now rewrite (Hcpu 16%Z eq_refl), (Hram eq_refl).
  - injection Hrows as _ Hrest. destruct before; discriminate.
Defined.

Lemma updatePoolTotals_idempotent_witness :
  db (snd (updatePoolTotals "P"
             (snd (updatePoolTotals "P" (quiet joined_store []))))) =
  joined_store.
Proof.
  rewrite (updatePoolTotals_idempotent "P" (quiet joined_store []) eq_refl).
  reflexivity.
Defined.

Lemma updatePoolTotals_unknown_pool_witness :
  db (snd (updatePoolTotals "Q" (quiet joined_store []))) = joined_store.
Proof.
  apply (updatePoolTotals_unknown_pool "Q" (quiet joined_store [])).
  intros p [<- | []]. discriminate.
Defined.

Lemma heartbeat_survives_aggregator_failure_witness :
  fst (heartbeat at_ten "A" resized second_call_fails) =
    {| status := 200; body := Success "Heartbeat received" |} /\
  pools (db (snd (heartbeat at_ten "A" resized second_call_fails))) =
    [lone_pool].
Proof.
  assert (Hcid : "c1" <> "") by discriminate.
  destruct (heartbeat_survives_aggregator_failure at_ten "A" resized
              second_call_fails row_of_A "c1" eq_refl Hcid
              (proj1 (proj2 joined_keys)) (or_introl eq_refl)
              eq_refl eq_refl eq_refl eq_refl eq_refl)
    as (Hanswer & Hpools & _).
  split; assumption.
Defined.

Lemma register_lookup_failure_witness :
  fst (register at_eleven "A" second_registration second_call_fails) =
  {| status := 500; body := ErrorBody "Failed to register agent" |}.
Proof.
  assert (Hne : "P" <> "") by discriminate.
  apply (register_lookup_failure at_eleven "A" second_registration
           second_call_fails "P" lone_pool row_of_A eq_refl Hne
           (proj1 joined_keys) (or_introl eq_refl) eq_refl
           (or_introl eq_refl) eq_refl eq_refl eq_refl).
Defined.
